(** * The Amazon review framework: conversation loop and input assembler

    A shallow embedding of [amazon_review_framework.py].  The script reads a
    product review from the console, attaches the pictures found in the
    [images] folder, and then alternates between a remote model and the
    operator until the operator types [exit], at which point the transcript
    is written to [amazon_review_conversation.txt].

    The statements of the script are written in a small monad that threads
    the state of the run (conversation, console, logs of the requests sent
    and of the files opened, files written) and stops at the first
    exception.  The run itself is a machine whose moves are the stretches
    of the script between two blocking calls: the assembling of the first
    message, the remote call, the console read.  The console, the file
    system and the remote model are parameters of the run, gathered in a
    [World].

    Python strings are modelled by [string]; [str.lower] and [str.upper] act
    on the ASCII letters, which is all the comparisons of the script
    ([== 'exit'], [endswith('.jpg')], ...) can observe.  Paths follow
    [posixpath]. *)

From Stdlib Require Import List String Ascii NArith ZArith Lia Bool.
From Stdlib.Strings Require Import Byte.
From stdpp Require Import gmap strings.
Import ListNotations.
Open Scope string_scope.

(** ** Python string primitives *)

Module Py.

(** The line feed, written [\n] in the source. *)
Definition nl : string := String "010"%char EmptyString.

Definition is_upper (c : ascii) : bool :=
  let n := N_of_ascii c in ((65 <=? n) && (n <=? 90))%N.

Definition is_lower (c : ascii) : bool :=
  let n := N_of_ascii c in ((97 <=? n) && (n <=? 122))%N.

Definition ascii_lower (c : ascii) : ascii :=
  if is_upper c then ascii_of_N (N_of_ascii c + 32) else c.

Definition ascii_upper (c : ascii) : ascii :=
  if is_lower c then ascii_of_N (N_of_ascii c - 32) else c.

Fixpoint str_map (f : ascii -> ascii) (s : string) : string :=
  match s with
  | EmptyString => EmptyString
  | String c s' => String (f c) (str_map f s')
  end.

(** [s.lower()] and [s.upper()]. *)
Definition lower : string -> string := str_map ascii_lower.
Definition upper : string -> string := str_map ascii_upper.

(** [s[i:]]. *)
Fixpoint slice_from (i : nat) (s : string) : string :=
  match i, s with
  | O, _ => s
  | S _, EmptyString => EmptyString
  | S i', String _ s' => slice_from i' s'
  end.

(** [s[:i]]. *)
Fixpoint slice_to (i : nat) (s : string) : string :=
  match i, s with
  | O, _ => EmptyString
  | S _, EmptyString => EmptyString
  | S i', String c s' => String c (slice_to i' s')
  end.

(** [s.startswith(pre)]. *)
Fixpoint startswith (s pre : string) : bool :=
  match pre, s with
  | EmptyString, _ => true
  | String _ _, EmptyString => false
  | String a pre', String b s' => Ascii.eqb a b && startswith s' pre'
  end.

(** [s.endswith(suf)]: the last [len(suf)] characters of [s] are [suf]. *)
Definition endswith (s suf : string) : bool :=
  (String.length suf <=? String.length s)%nat
  && String.eqb (slice_from (String.length s - String.length suf) s) suf.

(** [s.rfind(c)] for a one-character needle: the highest index holding [c],
    or [-1].  The scan goes left to right and remembers the last hit. *)
Fixpoint rfind_from (c : ascii) (s : string) (i last : Z) : Z :=
  match s with
  | EmptyString => last
  | String a s' => rfind_from c s' (i + 1) (if Ascii.eqb a c then i else last)
  end.

Definition rfind (c : ascii) (s : string) : Z := rfind_from c s 0 (-1).

(** [needle in s]. *)
Fixpoint contains (s needle : string) : bool :=
  startswith s needle
  || match s with
     | EmptyString => false
     | String _ s' => contains s' needle
     end.

(** No character of [s] is [c]. *)
Fixpoint free_of (c : ascii) (s : string) : bool :=
  match s with
  | EmptyString => true
  | String a s' => negb (Ascii.eqb a c) && free_of c s'
  end.

(** Every character of [s] is [c]. *)
Fixpoint all_of (c : ascii) (s : string) : bool :=
  match s with
  | EmptyString => true
  | String a s' => Ascii.eqb a c && all_of c s'
  end.

(** [''.join(parts)]. *)
Definition join (parts : list string) : string :=
  fold_right String.append EmptyString parts.

End Py.

(** ** [os.path] (POSIX flavour) *)

Module OsPath.

(** [os.path.join(a, b)] for two components. *)
Definition join (a b : string) : string :=
  if Py.startswith b "/" then b
  else if String.eqb a EmptyString || Py.endswith a "/" then a ++ b
  else a ++ "/" ++ b.

(** The inner loop of [genericpath._splitext]: is there a character other
    than the extension separator among the [n] characters of [p] that start
    at [filenameIndex]? *)
Fixpoint has_stem (p : string) (filenameIndex n : nat) : bool :=
  match n with
  | O => false
  | S n' =>
      if negb (String.eqb (Py.slice_to 1 (Py.slice_from filenameIndex p)) ".")
      then true
      else has_stem p (S filenameIndex) n'
  end.

(** [os.path.splitext(p)]: split at the last dot of the last component,
    unless that component consists of leading dots only up to there. *)
Definition splitext (p : string) : string * string :=
  let sepIndex := Py.rfind "/" p in
  let dotIndex := Py.rfind "." p in
  if (sepIndex <? dotIndex)%Z then
    let filenameIndex := Z.to_nat (sepIndex + 1) in
    if has_stem p filenameIndex (Z.to_nat dotIndex - filenameIndex)
    then (Py.slice_to (Z.to_nat dotIndex) p, Py.slice_from (Z.to_nat dotIndex) p)
    else (p, EmptyString)
  else (p, EmptyString).

End OsPath.

(** ** [base64.b64encode] *)

Module Base64.

Definition alphabet : string :=
  "ABCDEFGHIJKLMNOPQRSTUVWXYZabcdefghijklmnopqrstuvwxyz0123456789+/".

(** The character of a 6-bit group. *)
Definition digit (n : N) : ascii :=
  match String.get (N.to_nat n) alphabet with
  | Some c => c
  | None => "="%char
  end.

Definition pad : ascii := "="%char.

(** Three bytes make four digits; a final group of one or two bytes is
    padded with [=]. *)
Fixpoint b64encode (bs : list byte) : string :=
  match bs with
  | [] => EmptyString
  | [a] =>
      let x := Byte.to_N a in
      String (digit (N.shiftr x 2))
        (String (digit (N.shiftl (N.land x 3) 4))
           (String pad (String pad EmptyString)))
  | [a; b] =>
      let x := Byte.to_N a in
      let y := Byte.to_N b in
      String (digit (N.shiftr x 2))
        (String (digit (N.lor (N.shiftl (N.land x 3) 4) (N.shiftr y 4)))
           (String (digit (N.shiftl (N.land y 15) 2))
              (String pad EmptyString)))
  | a :: b :: c :: rest =>
      let x := Byte.to_N a in
      let y := Byte.to_N b in
      let z := Byte.to_N c in
      String (digit (N.shiftr x 2))
        (String (digit (N.lor (N.shiftl (N.land x 3) 4) (N.shiftr y 4)))
           (String (digit (N.lor (N.shiftl (N.land y 15) 2) (N.shiftr z 6)))
              (String (digit (N.land z 63)) (b64encode rest))))
  end.

End Base64.

(** ** Data model *)

(** A content part of a multi-part message: the dictionaries with
    ["type": "text"] and ["type": "image"] of the source. *)
Inductive Part : Type :=
  | TextPart (text : string)
  | ImagePart (media_type data : string).

(** A message's content is a plain string or a list of parts. *)
Inductive Content : Type :=
  | Str (s : string)
  | Parts (items : list Part).

Record Message : Type := { role : string; content : Content }.

(** What [client.messages.create] is called with. *)
Record Request : Type := {
  req_model : string;
  req_system : string;
  req_messages : list Message;
  req_max_tokens : Z
}.

(** A content block of a response: a text block, or a block of another kind,
    which has no [text] attribute. *)
Inductive Block : Type :=
  | TextBlock (text : string)
  | OtherBlock.

Inductive Response : Type :=
  | RemoteFailure
  | Reply (blocks : list Block).

Inductive Error : Type :=
  | EOFError
  | OSError (path : string)
  | UnicodeEncodeError
  | RemoteError
  | IndexError
  | AttributeError.

(** The surroundings of one run: the console input, the file system as the
    script queries it, and the remote model, which answers the [n]-th
    request of the run.  A file is written through a handle: [fs_writable]
    tells whether it can be opened for writing; [fs_write_fails path so_far
    text] is [None] when the write of [text] after [so_far] goes through,
    and otherwise the error raised (the text cannot be encoded, the device
    is full) with what the file is left holding; [fs_close_fails path
    content] is the same for the closing of the handle. *)
Record World : Type := {
  w_stdin : list string;
  fs_exists : string -> bool;
  fs_listdir : string -> option (list string);
  fs_read : string -> option (list byte);
  fs_writable : string -> bool;
  fs_write_fails : string -> string -> string -> option (Error * string);
  fs_close_fails : string -> string -> option (Error * string);
  w_files : gmap string string;
  remote : nat -> Request -> Response
}.

(** Where the run stands: assembling the first message, at one of the two
    blocking calls of the loop, or finished. *)
Inductive PC : Type :=
  | Assembling
  | AwaitingModelReply
  | AwaitingUserInput
  | Terminated
  | Failed (e : Error).

Record Config : Type := {
  pc : PC;
  messages : list Message;
  stdin : list string;
  stdout : list string;
  requests : list Request;
  opened : list string;
  files : gmap string string
}.

Definition set_pc (p : PC) (c : Config) : Config :=
  {| pc := p; messages := messages c; stdin := stdin c; stdout := stdout c;
     requests := requests c; opened := opened c; files := files c |}.

Definition set_messages (ms : list Message) (c : Config) : Config :=
  {| pc := pc c; messages := ms; stdin := stdin c; stdout := stdout c;
     requests := requests c; opened := opened c; files := files c |}.

Definition set_stdin (l : list string) (c : Config) : Config :=
  {| pc := pc c; messages := messages c; stdin := l; stdout := stdout c;
     requests := requests c; opened := opened c; files := files c |}.

Definition set_stdout (l : list string) (c : Config) : Config :=
  {| pc := pc c; messages := messages c; stdin := stdin c; stdout := l;
     requests := requests c; opened := opened c; files := files c |}.

Definition set_requests (l : list Request) (c : Config) : Config :=
  {| pc := pc c; messages := messages c; stdin := stdin c; stdout := stdout c;
     requests := l; opened := opened c; files := files c |}.

Definition set_opened (l : list string) (c : Config) : Config :=
  {| pc := pc c; messages := messages c; stdin := stdin c; stdout := stdout c;
     requests := requests c; opened := l; files := files c |}.

Definition set_files (m : gmap string string) (c : Config) : Config :=
  {| pc := pc c; messages := messages c; stdin := stdin c; stdout := stdout c;
     requests := requests c; opened := opened c; files := m |}.

(** ** Statements: state passing with exceptions *)

Inductive Outcome (A : Type) : Type :=
  | Raise (e : Error)
  | Return (a : A).
Arguments Raise {A} e.
Arguments Return {A} a.

Definition M (A : Type) : Type := Config -> Config * Outcome A.

Definition ret {A} (a : A) : M A := fun c => (c, Return a).

Definition raise {A} (e : Error) : M A := fun c => (c, Raise e).

Definition bind {A B} (m : M A) (k : A -> M B) : M B :=
  fun c =>
    match m c with
    | (c', Return a) => k a c'
    | (c', Raise e) => (c', Raise e)
    end.

Declare Scope script_scope.
Delimit Scope script_scope with script.
Notation "x <- m ;; k" := (bind m (fun x => k))
  (at level 20, m at level 99, k at level 200, right associativity)
  : script_scope.
Notation "' pat <- m ;; k" := (bind m (fun x => match x with pat => k end))
  (at level 20, pat pattern, m at level 99, k at level 200,
   right associativity) : script_scope.
Notation "m ;; k" := (bind m (fun _ => k))
  (at level 100, k at level 200, right associativity) : script_scope.
Open Scope script_scope.

(** [for x in l: body(x)]. *)
Fixpoint for_each {A} (l : list A) (body : A -> M unit) : M unit :=
  match l with
  | [] => ret tt
  | x :: l' => body x ;; for_each l' body
  end.

Definition get_messages : M (list Message) := fun c => (c, Return (messages c)).

(** [messages.append(m)]. *)
Definition append_message (m : Message) : M unit :=
  fun c => (set_messages (messages c ++ [m]) c, Return tt).

(** [print(s)]. *)
Definition print (s : string) : M unit :=
  fun c => (set_stdout (stdout c ++ [s ++ Py.nl]) c, Return tt).

(** [input(prompt)]: shows the prompt and takes the next line of the
    console, or raises [EOFError] when there is none. *)
Definition input (prompt : string) : M string :=
  fun c =>
    let c := set_stdout (stdout c ++ [prompt]) c in
    match stdin c with
    | [] => (c, Raise EOFError)
    | line :: rest => (set_stdin rest c, Return line)
    end.

(** The file a text-mode handle opened with ["w"] refers to: opening
    truncates or raises and leaves the files alone; every [f.write] appends
    or raises; leaving the [with] block closes the handle, which can raise
    as well.  A write or a closing that raises comes after the truncation:
    the file is left with what the world says. *)
Definition open_w (w : World) (path : string) : M unit :=
  fun c =>
    if fs_writable w path
    then (set_files (<[path := EmptyString]> (files c)) c, Return tt)
    else (c, Raise (OSError path)).

Definition f_write (w : World) (path : string) (s : string) : M unit :=
  fun c =>
    let so_far := default EmptyString (files c !! path) in
    match fs_write_fails w path so_far s with
    | None => (set_files (alter (fun old => old ++ s) path (files c)) c, Return tt)
    | Some (e, remains) => (set_files (<[path := remains]> (files c)) c, Raise e)
    end.

Definition f_close (w : World) (path : string) : M unit :=
  fun c =>
    let content := default EmptyString (files c !! path) in
    match fs_close_fails w path content with
    | None => (c, Return tt)
    | Some (e, remains) => (set_files (<[path := remains]> (files c)) c, Raise e)
    end.

(** ** The script *)

Definition system_prompt : string := "
    You are an expert review assistant that helps transform product experiences into high-quality Amazon reviews.
    
    Use the Amazon Review Framework to guide this process. The framework consists of:
    1. Analyzing the initial review and any provided product images
    2. Asking targeted questions to gather missing context
    3. Creating an enhanced draft based on the gathered information
    4. Refining the review based on user feedback
    
    IMPORTANT: You MUST follow these steps in order. After analyzing the initial review and images, 
    ask questions to gather more information BEFORE creating any draft.
    
    When analyzing images, use your judgment to identify important product aspects that could enhance the review.
    Consider how the images complement or contradict the written review, and what additional insights they provide.
    ".

Definition transcript_path : string := "amazon_review_conversation.txt".

Section Script.

Variable w : World.

Definition os_path_exists (path : string) : M bool :=
  ret (fs_exists w path).

Definition os_listdir (path : string) : M (list string) :=
  match fs_listdir w path with
  | Some names => ret names
  | None => raise (OSError path)
  end.

(** [open(path, "rb").read()]. *)
Definition read_binary (path : string) : M (list byte) :=
  fun c =>
    let c := set_opened (opened c ++ [path]) c in
    match fs_read w path with
    | Some bytes => (c, Return bytes)
    | None => (c, Raise (OSError path))
    end.

Definition encode_image (image_path : string) : M string :=
  bytes <- read_binary image_path ;;
  ret (Base64.b64encode bytes).

Definition image_extensions : list string :=
  [".jpg"; ".jpeg"; ".png"; ".gif"; ".webp"].

(** [any(file.lower().endswith(ext) for ext in image_extensions)]. *)
Definition is_image_file (file : string) : bool :=
  existsb (fun ext => Py.endswith (Py.lower file) ext) image_extensions.

Definition get_image_files : M (list string) :=
  let image_files : list string := [] in
  ex <- os_path_exists "images" ;;
  if ex then
    names <- os_listdir "images" ;;
    ret (fold_left
           (fun image_files file =>
              if is_image_file file
              then (image_files ++ [OsPath.join "images" file])%list
              else image_files)
           names image_files)
  else ret image_files.

(** [f"image/{os.path.splitext(image_path)[1][1:]}"]. *)
Definition media_type_of (image_path : string) : string :=
  "image/" ++ Py.slice_from 1 (snd (OsPath.splitext image_path)).

(** The loop over [image_files] that fills [image_content]. *)
Fixpoint encode_images (image_files : list string) (image_content : list Part)
  : M (list Part) :=
  match image_files with
  | [] => ret image_content
  | image_path :: rest =>
      image_base64 <- encode_image image_path ;;
      encode_images rest
        (image_content ++ [ImagePart (media_type_of image_path) image_base64])
  end.

(** Lines 26 to 79: everything before the loop. *)
Definition assemble : M unit :=
  print (Py.nl ++ "=== AMAZON REVIEW FRAMEWORK ===") ;;
  print (Py.nl ++ "Please enter your initial product experience/review:") ;;
  initial_review <- input "> " ;;
  image_files <- get_image_files ;;
  let first_message_content :=
    "Here is my initial product review:" ++ Py.nl ++ Py.nl
    ++ initial_review ++ Py.nl ++ Py.nl in
  ' (first_message_content, image_content) <-
    match image_files with
    | [] => ret (first_message_content, [])
    | _ :: _ =>
        let first_message_content :=
          first_message_content
          ++ "I'm also sharing some images of the product for your analysis:"
          ++ Py.nl in
        image_content <- encode_images image_files [] ;;
        ret (first_message_content, image_content)
    end ;;
  (fun c =>
     (set_messages
        [ {| role := "user";
             content := Parts (TextPart first_message_content :: image_content) |} ]
        c,
      Return tt)) ;;
  print (Py.nl
         ++ "Starting conversation with Claude. Type 'exit' to end the session.").

(** [client.messages.create(...)]: the request goes out, and either fails
    or brings back the content blocks of the response. *)
Definition client_messages_create (req : Request) : M (list Block) :=
  fun c =>
    let n := List.length (requests c) in
    let c := set_requests (requests c ++ [req]) c in
    match remote w n req with
    | RemoteFailure => (c, Raise RemoteError)
    | Reply blocks => (c, Return blocks)
    end.

(** [response.content[0].text]. *)
Definition content_0_text (blocks : list Block) : M string :=
  match blocks with
  | [] => raise IndexError
  | TextBlock text :: _ => ret text
  | OtherBlock :: _ => raise AttributeError
  end.

(** Lines 84 to 102: from the top of the loop body to the console read. *)
Definition await_model_reply : M unit :=
  msgs <- get_messages ;;
  response <- client_messages_create
    {| req_model := "claude-3-7-sonnet-20250219";
       req_system := system_prompt;
       req_messages := msgs;
       req_max_tokens := 4000 |} ;;
  assistant_message <- content_0_text response ;;
  print (Py.nl ++ "Claude: " ++ assistant_message) ;;
  append_message {| role := "assistant"; content := Str assistant_message |} ;;
  print (Py.nl ++ "You (type 'exit' to end): ").

(** [[item['text'] for item in content if item['type'] == 'text']]. *)
Fixpoint text_parts (items : list Part) : list string :=
  match items with
  | [] => []
  | TextPart text :: rest => text :: text_parts rest
  | ImagePart _ _ :: rest => text_parts rest
  end.

(** Lines 107 to 114: the transcript, written inside a [with] block. *)
Definition save_conversation : M unit :=
  open_w w transcript_path ;;
  msgs <- get_messages ;;
  for_each msgs (fun message =>
    match content message with
    | Str s =>
        f_write w transcript_path
          (Py.upper (role message) ++ ": " ++ s ++ Py.nl ++ Py.nl)
    | Parts items =>
        f_write w transcript_path
          (Py.upper (role message) ++ ": " ++ Py.join (text_parts items)
           ++ Py.nl ++ Py.nl)
    end) ;;
  f_close w transcript_path.

(** Lines 103 to 123: the console read and what follows it; the result is
    the new value of [conversation_active]. *)
Definition await_user_input : M bool :=
  user_response <- input "> " ;;
  if String.eqb (Py.lower user_response) "exit" then
    save_conversation ;;
    print (Py.nl ++ "Conversation saved to 'amazon_review_conversation.txt'") ;;
    ret false
  else
    append_message {| role := "user"; content := Str user_response |} ;;
    ret true.

(** One move of the run. *)
Definition step (c : Config) : Config :=
  match pc c with
  | Assembling =>
      match assemble c with
      | (c', Return _) => set_pc AwaitingModelReply c'
      | (c', Raise e) => set_pc (Failed e) c'
      end
  | AwaitingModelReply =>
      match await_model_reply c with
      | (c', Return _) => set_pc AwaitingUserInput c'
      | (c', Raise e) => set_pc (Failed e) c'
      end
  | AwaitingUserInput =>
      match await_user_input c with
      | (c', Return true) => set_pc AwaitingModelReply c'
      | (c', Return false) => set_pc Terminated c'
      | (c', Raise e) => set_pc (Failed e) c'
      end
  | Terminated | Failed _ => c
  end.

Fixpoint run (n : nat) (c : Config) : Config :=
  match n with
  | O => c
  | S n' => run n' (step c)
  end.

(** The conversation is created empty at program start. *)
Definition init : Config :=
  {| pc := Assembling; messages := []; stdin := w_stdin w; stdout := [];
     requests := []; opened := []; files := w_files w |}.

(** Every loop iteration takes a line of the console, so twice the number
    of lines, and one move for the assembling, is enough. *)
Definition create_amazon_review : Config :=
  run (2 * List.length (w_stdin w) + 1) init.

End Script.


(** ** Vocabulary of the specification *)

Module Spec.

Definition is_text_part (item : Part) : bool :=
  match item with
  | TextPart _ => true
  | ImagePart _ _ => false
  end.

Definition is_image_part (item : Part) : bool := negb (is_text_part item).

Definition part_text (item : Part) : string :=
  match item with
  | TextPart text => text
  | ImagePart _ _ => EmptyString
  end.

(** The textual content of a message: the string itself, or the
    concatenation of the text parts only. *)
Definition message_text (c : Content) : string :=
  match c with
  | Str s => s
  | Parts items => Py.join (map part_text (List.filter is_text_part items))
  end.

(** One block of the transcript: the upper-cased role label, a colon, a
    space, the text, and a blank line. *)
Definition transcript_block (m : Message) : string :=
  Py.upper (role m) ++ ": " ++ message_text (content m) ++ Py.nl ++ Py.nl.

Definition transcript (msgs : list Message) : string :=
  Py.join (map transcript_block msgs).

(** A file name is recognised when it ends, whatever the case of its
    letters, in one of the extensions. *)
Definition recognised (file : string) : Prop :=
  exists stem ext,
    file = stem ++ ext
    /\ In (Py.lower ext) [".jpg"; ".jpeg"; ".png"; ".gif"; ".webp"].

(** The extension of a recognised file name as found: what follows its
    last dot. *)
Definition extension_as_found (file : string) : string :=
  Py.slice_from (Z.to_nat (Py.rfind "." file + 1)) file.

(** The words that announce the pictures. *)
Definition images_phrase : string := "sharing some images".

(** The spellings of the sentinel. *)
Definition sentinel_spellings : list string :=
  [ "exit"; "exiT"; "exIt"; "exIT"; "eXit"; "eXiT"; "eXIt"; "eXIT";
    "Exit"; "ExiT"; "ExIt"; "ExIT"; "EXit"; "EXiT"; "EXIt"; "EXIT" ].

(** The first text segment of a reply. *)
Fixpoint first_text_segment (blocks : list Block) : option string :=
  match blocks with
  | [] => None
  | TextBlock text :: _ => Some text
  | OtherBlock :: rest => first_text_segment rest
  end.

(** Who speaks at position [i] of a conversation that alternates. *)
Definition expected_role (i : nat) : string :=
  if Nat.even i then "user" else "assistant".

Definition alternating (msgs : list Message) : Prop :=
  map role msgs = map expected_role (seq 0 (List.length msgs)).

(** The text part the assembler builds from a review when there is no
    picture. *)
Definition review_text (initial_review : string) : string :=
  "Here is my initial product review:" ++ Py.nl ++ Py.nl
  ++ initial_review ++ Py.nl ++ Py.nl.

End Spec.

Definition user_message (line : string) : Message :=
  {| role := "user"; content := Str line |}.

Definition assistant_message (text : string) : Message :=
  {| role := "assistant"; content := Str text |}.

(** The request the loop sends for a given history. *)
Definition request_for (msgs : list Message) : Request :=
  {| req_model := "claude-3-7-sonnet-20250219";
     req_system := system_prompt;
     req_messages := msgs;
     req_max_tokens := 4000 |}.

(** How the saving of a conversation ends, once the transcript is open:
    with every block written and the handle closed, or with the error of the
    first write that fails, or of the closing, and what the file is left
    holding. *)
Inductive Saved : Type :=
  | SavedAll (content : string)
  | SaveFailed (e : Error) (remains : string).

Fixpoint write_all (w : World) (msgs : list Message) (so_far : string) : Saved :=
  match msgs with
  | [] => SavedAll so_far
  | m :: rest =>
      match fs_write_fails w transcript_path so_far (Spec.transcript_block m) with
      | None => write_all w rest (so_far ++ Spec.transcript_block m)
      | Some (e, remains) => SaveFailed e remains
      end
  end.

Definition save_outcome (w : World) (msgs : list Message) : Saved :=
  match write_all w msgs EmptyString with
  | SavedAll content =>
      match fs_close_fails w transcript_path content with
      | None => SavedAll content
      | Some (e, remains) => SaveFailed e remains
      end
  | SaveFailed e remains => SaveFailed e remains
  end.

(** The writes and the closing of the transcript all go through. *)
Definition transcript_storable (w : World) : Prop :=
  (forall so_far text, fs_write_fails w transcript_path so_far text = None)
  /\ (forall written, fs_close_fails w transcript_path written = None).

Definition is_final (p : PC) : bool :=
  match p with
  | Terminated | Failed _ => true
  | _ => false
  end.

(** The configurations a run goes through. *)
Inductive reachable (w : World) : Config -> Prop :=
  | reachable_init : reachable w (init w)
  | reachable_step c : reachable w c -> reachable w (step w c).

(** The outcome of [get_image_files] as a function of the world: the paths
    found, or nothing when the listing itself fails. *)
Definition discovered (w : World) : option (list string) :=
  if fs_exists w "images" then
    match fs_listdir w "images" with
    | Some names => Some (map (OsPath.join "images") (List.filter is_image_file names))
    | None => None
    end
  else Some [].

Definition readable (w : World) (path : string) : Prop :=
  fs_read w path <> None.

(** The image part built for a path whose file holds [bytes]. *)
Definition image_part (w : World) (image_path : string) : Part :=
  ImagePart (media_type_of image_path)
    (Base64.b64encode (default [] (fs_read w image_path))).

Definition images_sentence : string :=
  "I'm also sharing some images of the product for your analysis:" ++ Py.nl.

(** The first message, for a review and the paths of the pictures. *)
Definition first_message (w : World) (initial_review : string)
    (image_files : list string) : Message :=
  {| role := "user";
     content :=
       Parts
         (TextPart
            (match image_files with
             | [] => Spec.review_text initial_review
             | _ :: _ => Spec.review_text initial_review ++ images_sentence
             end)
          :: map (image_part w) image_files) |}.

Definition banner : list string :=
  [ Py.nl ++ "=== AMAZON REVIEW FRAMEWORK ===" ++ Py.nl;
    Py.nl ++ "Please enter your initial product experience/review:" ++ Py.nl;
    "> " ].

Definition loop_notice : string :=
  Py.nl ++ "Starting conversation with Claude. Type 'exit' to end the session."
  ++ Py.nl.

(** The four ways the assembling move can go from a configuration [c]. *)
Inductive assembled (w : World) (c : Config) : Config -> Prop :=
  | assembled_eof :
      stdin c = [] ->
      assembled w c (set_pc (Failed EOFError) (set_stdout (stdout c ++ banner) c))
  | assembled_unlistable initial_review rest :
      stdin c = initial_review :: rest ->
      discovered w = None ->
      assembled w c
        (set_pc (Failed (OSError "images"))
           (set_stdin rest (set_stdout (stdout c ++ banner) c)))
  | assembled_unreadable initial_review rest before p after :
      stdin c = initial_review :: rest ->
      discovered w = Some (before ++ p :: after)%list ->
      Forall (readable w) before ->
      fs_read w p = None ->
      assembled w c
        {| pc := Failed (OSError p);
           messages := messages c;
           stdin := rest;
           stdout := stdout c ++ banner;
           requests := requests c;
           opened := opened c ++ before ++ [p];
           files := files c |}
  | assembled_ok initial_review rest image_files :
      stdin c = initial_review :: rest ->
      discovered w = Some image_files ->
      Forall (readable w) image_files ->
      assembled w c
        {| pc := AwaitingModelReply;
           messages := [first_message w initial_review image_files];
           stdin := rest;
           stdout := ((stdout c ++ banner) ++ [loop_notice])%list;
           requests := requests c;
           opened := opened c ++ image_files;
           files := files c |}.

(** Where the messages of a run come from: the assembler, the remote
    model, or the console. *)
Inductive origin (w : World) : Message -> Prop :=
  | origin_first m :
      messages (step w (init w)) = [m] -> origin w m
  | origin_reply n req text rest :
      remote w n req = Reply (TextBlock text :: rest) ->
      origin w (assistant_message text)
  | origin_line line :
      In line (w_stdin w) -> origin w (user_message line).

(** The log of requests holds, in order, one request per exchange so far,
    each with the fixed directive and the history as it stood. *)
Definition requests_logged (c : Config) : Prop :=
  requests c =
  map (fun k => request_for (firstn (1 + 2 * k) (messages c)))
    (seq 0 (List.length (requests c))).

(** How the length of the conversation, the requests made, the lines read
    and the files relate at each point of the run. *)
Definition progress (w : World) (c : Config) : Prop :=
  match pc c with
  | Assembling => c = init w
  | AwaitingModelReply =>
      List.length (messages c) = 1 + 2 * List.length (requests c)
      /\ List.length (w_stdin w)
         = List.length (stdin c) + 1 + List.length (requests c)
      /\ files c = w_files w
  | AwaitingUserInput =>
      List.length (messages c) = 2 * List.length (requests c)
      /\ List.length (w_stdin w) = List.length (stdin c) + List.length (requests c)
      /\ files c = w_files w
      /\ 0 < List.length (requests c)
  | Terminated =>
      List.length (messages c) = 2 * List.length (requests c)
      /\ List.length (w_stdin w)
         = List.length (stdin c) + 1 + List.length (requests c)
      /\ files c = <[transcript_path := Spec.transcript (messages c)]> (w_files w)
      /\ 0 < List.length (requests c)
  | Failed e =>
      2 * List.length (requests c) <= 1 + List.length (messages c)
      /\ (files c = w_files w
          \/ exists remains,
               save_outcome w (messages c) = SaveFailed e remains
               /\ files c = <[transcript_path := remains]> (w_files w)
               /\ fs_writable w transcript_path = true
               /\ exists sentinel,
                    In sentinel (tl (w_stdin w)) /\ Py.lower sentinel = "exit")
  end.

(** Every assistant message is the text the remote model gave to the
    request made with the history before it. *)
Definition replies_kept (w : World) (c : Config) : Prop :=
  forall k,
    1 + 2 * k < List.length (messages c) ->
    exists text more,
      remote w k (request_for (firstn (1 + 2 * k) (messages c)))
      = Reply (TextBlock text :: more)
      /\ nth_error (messages c) (1 + 2 * k) = Some (assistant_message text).

Record Inv (w : World) (c : Config) : Prop := {
  inv_progress : progress w c;
  inv_alternating : Spec.alternating (messages c);
  inv_requests : requests_logged c;
  inv_replies : replies_kept w c;
  inv_origin : Forall (origin w) (messages c);
  inv_stdin : exists consumed, w_stdin w = (consumed ++ stdin c)%list
}.

(** A bound on the moves a configuration still has to make. *)
Definition moves_left (c : Config) : nat :=
  match pc c with
  | Assembling => 2 * List.length (stdin c) + 1
  | AwaitingModelReply => 2 * List.length (stdin c) + 2
  | AwaitingUserInput => 2 * List.length (stdin c) + 1
  | Terminated | Failed _ => 0
  end.

(** The turns of the operator so far, the review apart, and the replies
    of the remote model so far; at the two points of the loop every request
    made has been answered. *)
Definition user_turns (w : World) (c : Config) : nat :=
  List.length (w_stdin w) - List.length (stdin c) - 1.

Definition model_replies (c : Config) : nat := List.length (requests c).

(** The label of the block at position [i] of a transcript that
    alternates. *)
Definition expected_label (i : nat) : string :=
  if Nat.even i then "USER" else "ASSISTANT".

(** Reading base64 text back.  The script never decodes: this is the
    inverse against which the encoding of the pictures is checked. *)
Module Unbase64.

(** The value of a digit; 64 for a character that is none. *)
Definition value (c : ascii) : N :=
  let n := N_of_ascii c in
  if Py.is_upper c then (n - 65)%N
  else if Py.is_lower c then (n - 97 + 26)%N
  else if ((48 <=? n) && (n <=? 57))%N then (n - 48 + 52)%N
  else if Ascii.eqb c "+" then 62%N
  else if Ascii.eqb c "/" then 63%N
  else 64%N.

Definition byte_of (n : N) : byte := default x00 (Byte.of_N n).

(** Four digits make three bytes; padding ends the text. *)
Fixpoint decode (s : string) : list byte :=
  match s with
  | String a (String b (String c (String d rest))) =>
      let u0 := value a in
      let u1 := value b in
      let u2 := value c in
      let u3 := value d in
      let b1 := byte_of (u0 * 4 + u1 / 16) in
      let b2 := byte_of ((u1 mod 16) * 16 + u2 / 4) in
      let b3 := byte_of ((u2 mod 4) * 64 + u3) in
      if Ascii.eqb c "=" then [b1]
      else if Ascii.eqb d "=" then [b1; b2]
      else b1 :: b2 :: b3 :: decode rest
  | _ => []
  end.

(** A character of base64 text: a digit or the padding. *)
Definition is_b64_char (c : ascii) : bool :=
  (value c <? 64)%N || Ascii.eqb c "=".

Fixpoint all_chars (P : ascii -> bool) (s : string) : bool :=
  match s with
  | EmptyString => true
  | String c s' => P c && all_chars P s'
  end.

(** [P] holds of the numbers below [n]. *)
Definition below (n : nat) (P : N -> bool) : bool :=
  forallb P (map N.of_nat (seq 0 n)).

(** What links the digits of a group to its bytes: the first two digits
    to the first byte [x] and the high half [h] of the second, the third
    digit to the second byte [y] and the top two bits [t] of the third, the
    fourth digit to the third byte [z]. *)
Definition first_pair_ok (x h : N) : bool :=
  let d0 := N.shiftr x 2 in
  let d1 := N.lor (N.shiftl (N.land x 3) 4) h in
  ((d0 <? 64) && (d1 <? 64) && (d0 * 4 + d1 / 16 =? x) && (d1 mod 16 =? h))%N.

Definition second_pair_ok (y t : N) : bool :=
  let d2 := N.lor (N.shiftl (N.land y 15) 2) t in
  ((d2 <? 64) && (N.shiftr y 4 * 16 + d2 / 4 =? y) && (d2 mod 4 =? t))%N.

Definition last_ok (z : N) : bool :=
  let d3 := N.land z 63 in
  ((N.shiftr z 4 <? 16) && (N.shiftr z 6 <? 4) && (d3 <? 64)
   && (N.shiftr z 6 * 64 + d3 =? z))%N.

Definition digit_ok (n : N) : bool :=
  (value (Base64.digit n) =? n)%N && negb (Ascii.eqb (Base64.digit n) "=").

End Unbase64.

(** The conversation made of a first message and of the exchanges after
    it: a reply of the remote model and the line of the operator that
    answers it. *)
Definition conversation (first : Message) (exchanges : list (string * string))
  : list Message :=
  first
  :: flat_map (fun x => [assistant_message (fst x); user_message (snd x)]) exchanges.

(** A line that keeps the loop going. *)
Definition keeps_going (line : string) : Prop := Py.lower line <> "exit".

(** What a run has read and said when it stands at a point of the loop or
    has ended normally: the review and the pictures behind the first
    message, the exchanges so far, the reply not answered yet, and the line
    that ended the run. *)
Inductive story (w : World) (c : Config) : Prop :=
  | story_assembling :
      pc c = Assembling -> c = init w -> story w c
  | story_failed e :
      pc c = Failed e -> story w c
  | story_request review image_files exchanges :
      pc c = AwaitingModelReply ->
      discovered w = Some image_files ->
      Forall (readable w) image_files ->
      Forall keeps_going (map snd exchanges) ->
      w_stdin w = review :: (map snd exchanges ++ stdin c)%list ->
      messages c = conversation (first_message w review image_files) exchanges ->
      story w c
  | story_console review image_files exchanges reply :
      pc c = AwaitingUserInput ->
      discovered w = Some image_files ->
      Forall (readable w) image_files ->
      Forall keeps_going (map snd exchanges) ->
      w_stdin w = review :: (map snd exchanges ++ stdin c)%list ->
      messages c
      = (conversation (first_message w review image_files) exchanges
         ++ [assistant_message reply])%list ->
      story w c
  | story_saved review image_files exchanges reply sentinel :
      pc c = Terminated ->
      discovered w = Some image_files ->
      Forall (readable w) image_files ->
      Forall keeps_going (map snd exchanges) ->
      Py.lower sentinel = "exit" ->
      w_stdin w = review :: (map snd exchanges ++ sentinel :: stdin c)%list ->
      messages c
      = (conversation (first_message w review image_files) exchanges
         ++ [assistant_message reply])%list ->
      story w c.

(** A text the remote model gave as the first block of a reply. *)
Definition from_remote (w : World) (text : string) : Prop :=
  exists n req more, remote w n req = Reply (TextBlock text :: more).

(** Where the conversation comes from, wherever the run stands: it is empty,
    or it is the first message, built from the review and the pictures
    found, then the exchanges, each a text of the remote model and a line of
    the console, then at most one text of the remote model not answered
    yet. *)
Definition sourced (w : World) (c : Config) : Prop :=
  messages c = []
  \/ exists review rest image_files exchanges tail,
       w_stdin w = review :: rest
       /\ discovered w = Some image_files
       /\ Forall (from_remote w) (map fst exchanges ++ tail)
       /\ Forall (fun line => In line rest) (map snd exchanges)
       /\ messages c
          = (conversation (first_message w review image_files) exchanges
             ++ map assistant_message tail)%list
       /\ (pc c = AwaitingModelReply -> tail = [])
       /\ (pc c = AwaitingUserInput \/ pc c = Terminated ->
           exists reply, tail = [reply]).

(** What the logs of a run never exceed: the files opened are the first of
    the pictures found, in order; there is at most one request per line read
    from the console; and beyond the first message there are at most two
    messages per request. *)
Definition within_bounds (w : World) (c : Config) : Prop :=
  opened c `prefix_of` default [] (discovered w)
  /\ List.length (requests c) + List.length (stdin c) <= List.length (w_stdin w)
  /\ List.length (messages c) <= 1 + 2 * List.length (requests c).

(** ** Sample worlds *)

(** The scenario of the specification: a review, no [images] folder, one
    more turn, then the sentinel. *)
Definition blender_world : World :=
  {| w_stdin := ["Great blender, but lid leaks"; "About a month"; "Exit"];
     fs_exists := fun _ => false;
     fs_listdir := fun _ => None;
     fs_read := fun _ => None;
     fs_writable := fun _ => true;
     fs_write_fails := fun _ _ _ => None;
     fs_close_fails := fun _ _ => None;
     w_files := {[ transcript_path := "left over from an earlier run" ]};
     remote := fun n _ =>
       match n with
       | O => Reply [TextBlock "How long have you used it?"]
       | _ => Reply [TextBlock "Here is a draft."; OtherBlock]
       end |}.

(** A folder with pictures, a hidden file among them, and a text file. *)
Definition gallery_world : World :=
  {| w_stdin := ["Nice lamp"; "exit"];
     fs_exists := fun path => String.eqb path "images";
     fs_listdir := fun path =>
       if String.eqb path "images"
       then Some [".jpg"; "front.PNG"; "notes.txt"; "side.view.jpeg"]
       else None;
     fs_read := fun _ => Some (list_byte_of_string "Man");
     fs_writable := fun _ => true;
     fs_write_fails := fun _ _ _ => None;
     fs_close_fails := fun _ _ => None;
     w_files := ∅;
     remote := fun _ _ => Reply [TextBlock "Tell me more."] |}.

(** A folder whose second picture cannot be read. *)
Definition broken_world : World :=
  {| w_stdin := ["Nice lamp"; "exit"];
     fs_exists := fun path => String.eqb path "images";
     fs_listdir := fun path =>
       if String.eqb path "images" then Some ["a.png"; "b.gif"; "c.webp"] else None;
     fs_read := fun path =>
       if String.eqb path "images/b.gif" then None
       else Some (list_byte_of_string "Ma");
     fs_writable := fun _ => true;
     fs_write_fails := fun _ _ _ => None;
     fs_close_fails := fun _ _ => None;
     w_files := ∅;
     remote := fun _ _ => Reply [TextBlock "Tell me more."] |}.

(** A console that runs dry before anybody types the sentinel. *)
Definition talkative_world : World :=
  {| w_stdin := ["Nice lamp"; "It is bright"; "exit now"];
     fs_exists := fun _ => false;
     fs_listdir := fun _ => None;
     fs_read := fun _ => None;
     fs_writable := fun _ => true;
     fs_write_fails := fun _ _ _ => None;
     fs_close_fails := fun _ _ => None;
     w_files := {[ transcript_path := "kept" ]};
     remote := fun _ _ => Reply [TextBlock "Tell me more."] |}.

(** A remote model that cannot be reached. *)
Definition silent_world : World :=
  {| w_stdin := ["Nice lamp"; "exit"];
     fs_exists := fun _ => false;
     fs_listdir := fun _ => None;
     fs_read := fun _ => None;
     fs_writable := fun _ => true;
     fs_write_fails := fun _ _ _ => None;
     fs_close_fails := fun _ _ => None;
     w_files := ∅;
     remote := fun _ _ => RemoteFailure |}.

(** A working directory in which nothing can be written. *)
Definition readonly_world : World :=
  {| w_stdin := ["Nice lamp"; "EXIT"; "never read"];
     fs_exists := fun _ => false;
     fs_listdir := fun _ => None;
     fs_read := fun _ => None;
     fs_writable := fun _ => false;
     fs_write_fails := fun _ _ _ => None;
     fs_close_fails := fun _ _ => None;
     w_files := {[ transcript_path := "kept" ]};
     remote := fun _ _ => Reply [TextBlock "Tell me more."] |}.

(** An [images] entry that exists and cannot be listed. *)
Definition unlistable_world : World :=
  {| w_stdin := ["Nice lamp"; "exit"];
     fs_exists := fun path => String.eqb path "images";
     fs_listdir := fun _ => None;
     fs_read := fun _ => Some [];
     fs_writable := fun _ => true;
     fs_write_fails := fun _ _ _ => None;
     fs_close_fails := fun _ _ => None;
     w_files := ∅;
     remote := fun _ _ => Reply [TextBlock "Tell me more."] |}.

(** A console with nothing to read. *)
Definition mute_world : World :=
  {| w_stdin := [];
     fs_exists := fun path => String.eqb path "images";
     fs_listdir := fun _ => Some ["a.png"];
     fs_read := fun _ => None;
     fs_writable := fun _ => true;
     fs_write_fails := fun _ _ _ => None;
     fs_close_fails := fun _ _ => None;
     w_files := ∅;
     remote := fun _ _ => Reply [TextBlock "Tell me more."] |}.

(** A transcript that opens, and a reply the file cannot take: its write
    raises, and what was written before stays. *)
Definition garbled_world : World :=
  {| w_stdin := ["Nice lamp"; "exit"];
     fs_exists := fun _ => false;
     fs_listdir := fun _ => None;
     fs_read := fun _ => None;
     fs_writable := fun _ => true;
     fs_write_fails := fun _ so_far text =>
       if Py.startswith text "ASSISTANT"
       then Some (UnicodeEncodeError, so_far)
       else None;
     fs_close_fails := fun _ _ => None;
     w_files := {[ transcript_path := "kept"; "notes.txt" := "mine" ]};
     remote := fun _ _ => Reply [TextBlock "Tell me more."] |}.

(** A reply whose text comes after a block of another kind. *)
Definition late_text_world : World :=
  {| w_stdin := ["Nice lamp"; "exit"];
     fs_exists := fun _ => false;
     fs_listdir := fun _ => None;
     fs_read := fun _ => None;
     fs_writable := fun _ => true;
     fs_write_fails := fun _ _ _ => None;
     fs_close_fails := fun _ _ => None;
     w_files := ∅;
     remote := fun _ _ => Reply [OtherBlock; TextBlock "late text"] |}.

(** The blender run waiting at the console for the sentinel. *)
Definition blender_at_console : Config := run blender_world 4 (init blender_world).

(** ** Equations of the moves *)

Lemma set_files_same c : set_files (files c) c = c.
Proof. destruct c; reflexivity. Qed.

Lemma str_app_cons (a : ascii) (s t : string) :
  String a s ++ t = String a (s ++ t).
Proof. reflexivity. Qed.

Lemma str_app_nil_l (s : string) : EmptyString ++ s = s.
Proof. reflexivity. Qed.

Lemma str_app_nil_r (s : string) : s ++ EmptyString = s.
Proof.
  induction s as [|a s IH]; [reflexivity | now rewrite str_app_cons, IH].
Qed.

Lemma str_app_assoc (s t u : string) : (s ++ t) ++ u = s ++ t ++ u.
Proof.
  induction s as [|a s IH]; [reflexivity | now rewrite !str_app_cons, IH].
Qed.

Lemma text_parts_spec items :
  text_parts items = map Spec.part_text (List.filter Spec.is_text_part items).
Proof.
  induction items as [|[t|mt d] items IH]; simpl; [reflexivity | | exact IH].
  now rewrite IH.
Qed.

(** What the body of the saving loop writes for one message. *)
Lemma save_line_spec (w : World) (message : Message) :
  (match content message with
   | Str s =>
       f_write w transcript_path
         (Py.upper (role message) ++ ": " ++ s ++ Py.nl ++ Py.nl)
   | Parts items =>
       f_write w transcript_path
         (Py.upper (role message) ++ ": " ++ Py.join (text_parts items)
          ++ Py.nl ++ Py.nl)
   end) = f_write w transcript_path (Spec.transcript_block message).
Proof.
  destruct message as [r [s|items]]; unfold Spec.transcript_block; simpl;
    [reflexivity | now rewrite text_parts_spec].
Qed.

Lemma set_files_twice (m m' : gmap string string) (c : Config) :
  set_files m (set_files m' c) = set_files m c.
Proof. reflexivity. Qed.

(** The loop of the writes, from a file that holds [buf]. *)
Lemma for_each_f_write (w : World) (msgs : list Message) (buf : string) (c : Config) :
  files c !! transcript_path = Some buf ->
  for_each msgs
    (fun message => f_write w transcript_path (Spec.transcript_block message)) c
  = match write_all w msgs buf with
    | SavedAll written =>
        (set_files (<[transcript_path := written]> (files c)) c, Return tt)
    | SaveFailed e remains =>
        (set_files (<[transcript_path := remains]> (files c)) c, Raise e)
    end.
Proof.
  revert buf c. induction msgs as [|m msgs IH]; intros buf c Hbuf.
  - cbn [for_each write_all]. rewrite (insert_id _ _ _ Hbuf), set_files_same.
    reflexivity.
  - cbn [for_each write_all]. unfold bind at 1. unfold f_write at 1.
    rewrite Hbuf. change (default EmptyString (Some buf)) with buf.
    destruct (fs_write_fails w transcript_path buf (Spec.transcript_block m))
      as [[e remains]|]; [reflexivity |].
    rewrite (IH (buf ++ Spec.transcript_block m)).
    + cbn [files set_files].
      destruct (write_all w msgs (buf ++ Spec.transcript_block m));
        rewrite insert_alter_eq; reflexivity.
    + cbn [files set_files]. rewrite lookup_alter_eq, Hbuf. reflexivity.
Qed.

(** A saving that goes through has written the blocks of the messages, one
    after the other. *)
Lemma write_all_saved (w : World) (msgs : list Message) (buf written : string) :
  write_all w msgs buf = SavedAll written ->
  written = buf ++ Spec.transcript msgs.
Proof.
  revert buf. induction msgs as [|m msgs IH]; intros buf; cbn [write_all].
  - intros [= <-]. unfold Spec.transcript. cbn. now rewrite str_app_nil_r.
  - destruct (fs_write_fails w transcript_path buf (Spec.transcript_block m))
      as [[e remains]|]; [discriminate |].
    intros H. rewrite (IH _ H). unfold Spec.transcript.
    cbn [map Py.join fold_right]. now rewrite str_app_assoc.
Qed.

Lemma save_outcome_saved (w : World) (msgs : list Message) (written : string) :
  save_outcome w msgs = SavedAll written -> written = Spec.transcript msgs.
Proof.
  unfold save_outcome.
  destruct (write_all w msgs EmptyString) as [text|e remains] eqn:Hall;
    [| discriminate].
  destruct (fs_close_fails w transcript_path text) as [[e remains]|];
    [discriminate |].
  intros [= <-]. rewrite (write_all_saved _ _ _ _ Hall). apply str_app_nil_l.
Qed.

Lemma write_all_storable (w : World) (msgs : list Message) (buf : string) :
  (forall so_far text, fs_write_fails w transcript_path so_far text = None) ->
  write_all w msgs buf = SavedAll (buf ++ Spec.transcript msgs).
Proof.
  intros Hok. revert buf. induction msgs as [|m msgs IH]; intros buf;
    cbn [write_all].
  - unfold Spec.transcript. cbn. now rewrite str_app_nil_r.
  - rewrite Hok, IH. unfold Spec.transcript. cbn [map Py.join fold_right].
    now rewrite str_app_assoc.
Qed.

Lemma save_outcome_storable (w : World) (msgs : list Message) :
  transcript_storable w ->
  save_outcome w msgs = SavedAll (Spec.transcript msgs).
Proof.
  intros [Hwrite Hclose]. unfold save_outcome.
  rewrite (write_all_storable _ _ _ Hwrite), Hclose. now rewrite str_app_nil_l.
Qed.

(** A saving fails at the write of one of the blocks, those before it
    written, or at the closing, all of them written. *)
Lemma write_all_failed (w : World) (msgs : list Message) (buf : string)
    (e : Error) (remains : string) :
  write_all w msgs buf = SaveFailed e remains ->
  exists written m later,
    msgs = (written ++ m :: later)%list
    /\ fs_write_fails w transcript_path (buf ++ Spec.transcript written)
         (Spec.transcript_block m) = Some (e, remains).
Proof.
  revert buf. induction msgs as [|m msgs IH]; intros buf; cbn [write_all];
    [discriminate |].
  destruct (fs_write_fails w transcript_path buf (Spec.transcript_block m))
    as [[e' remains']|] eqn:Hm.
  - intros [= <- <-]. exists [], m, msgs. split; [reflexivity |].
    unfold Spec.transcript. cbn. now rewrite str_app_nil_r.
  - intros H. destruct (IH _ H) as (written & m' & later & -> & Hfail).
    exists (m :: written), m', later. split; [reflexivity |].
    unfold Spec.transcript. cbn [map Py.join fold_right].
    now rewrite <- str_app_assoc.
Qed.

Lemma save_outcome_failed (w : World) (msgs : list Message)
    (e : Error) (remains : string) :
  save_outcome w msgs = SaveFailed e remains ->
  (exists written m later,
     msgs = (written ++ m :: later)%list
     /\ fs_write_fails w transcript_path (Spec.transcript written)
          (Spec.transcript_block m) = Some (e, remains))
  \/ fs_close_fails w transcript_path (Spec.transcript msgs) = Some (e, remains).
Proof.
  unfold save_outcome.
  destruct (write_all w msgs EmptyString) as [text|e' remains'] eqn:Hall.
  - destruct (fs_close_fails w transcript_path text) as [[e' remains']|] eqn:Hclose;
      [| discriminate].
    intros [= <- <-]. right.
    rewrite (write_all_saved _ _ _ _ Hall), str_app_nil_l in Hclose. exact Hclose.
  - intros [= <- <-]. left.
    destruct (write_all_failed _ _ _ _ _ Hall) as (written & m & later & Hmsgs & H).
    rewrite str_app_nil_l in H. now exists written, m, later.
Qed.

Lemma for_each_ext {A} (l : list A) (f g : A -> M unit) :
  (forall x, f x = g x) -> for_each l f = for_each l g.
Proof.
  intros Hfg. induction l as [|x l IH]; [reflexivity |].
  cbn [for_each]. now rewrite Hfg, IH.
Qed.

Lemma save_conversation_spec (w : World) (c : Config) :
  save_conversation w c =
  if fs_writable w transcript_path
  then
    match save_outcome w (messages c) with
    | SavedAll _ =>
        (set_files (<[transcript_path := Spec.transcript (messages c)]> (files c)) c,
         Return tt)
    | SaveFailed e remains =>
        (set_files (<[transcript_path := remains]> (files c)) c, Raise e)
    end
  else (c, Raise (OSError transcript_path)).
Proof.
  unfold save_conversation, bind at 1, open_w.
  destruct (fs_writable w transcript_path); [| reflexivity].
  unfold bind at 1, get_messages. cbn [messages set_files].
  unfold bind at 1.
  rewrite (for_each_ext _ _ _ (save_line_spec w)).
  rewrite (for_each_f_write _ _ EmptyString)
    by (cbn [files set_files]; apply lookup_insert_eq).
  cbn [files set_files]. unfold save_outcome.
  destruct (write_all w (messages c) EmptyString) as [written|e remains] eqn:Hall.
  - rewrite set_files_twice, insert_insert_eq. unfold f_close.
    cbn [files set_files]. rewrite lookup_insert_eq.
    change (default EmptyString (Some written)) with written.
    destruct (fs_close_fails w transcript_path written) as [[e remains]|].
    + rewrite set_files_twice, insert_insert_eq. reflexivity.
    + rewrite (write_all_saved _ _ _ _ Hall), str_app_nil_l. reflexivity.
  - rewrite set_files_twice, insert_insert_eq. reflexivity.
Qed.

(** The move at the remote call. *)
Lemma step_await_model_reply (w : World) (c : Config) :
  pc c = AwaitingModelReply ->
  step w c =
  let sent := set_requests (requests c ++ [request_for (messages c)]) c in
  match remote w (List.length (requests c)) (request_for (messages c)) with
  | RemoteFailure => set_pc (Failed RemoteError) sent
  | Reply [] => set_pc (Failed IndexError) sent
  | Reply (OtherBlock :: _) => set_pc (Failed AttributeError) sent
  | Reply (TextBlock text :: _) =>
      {| pc := AwaitingUserInput;
         messages := messages c ++ [assistant_message text];
         stdin := stdin c;
         stdout := (stdout c ++ [Py.nl ++ "Claude: " ++ text ++ Py.nl])
                   ++ [Py.nl ++ "You (type 'exit' to end): " ++ Py.nl];
         requests := requests c ++ [request_for (messages c)];
         opened := opened c;
         files := files c |}
  end.
Proof.
  intros Hpc. unfold step. rewrite Hpc.
  unfold await_model_reply, bind, get_messages, client_messages_create.
  fold (request_for (messages c)).
  destruct (remote w _ _) as [|[|[text|] rest]]; reflexivity.
Qed.

(** The move at the console read. *)
Lemma step_await_user_input (w : World) (c : Config) :
  pc c = AwaitingUserInput ->
  step w c =
  let prompted := (stdout c ++ ["> "])%list in
  match stdin c with
  | [] => set_pc (Failed EOFError) (set_stdout prompted c)
  | line :: rest =>
      if String.eqb (Py.lower line) "exit" then
        if fs_writable w transcript_path then
          match save_outcome w (messages c) with
          | SavedAll _ =>
              {| pc := Terminated;
                 messages := messages c;
                 stdin := rest;
                 stdout := prompted
                           ++ [Py.nl
                               ++ "Conversation saved to 'amazon_review_conversation.txt'"
                               ++ Py.nl];
                 requests := requests c;
                 opened := opened c;
                 files := <[transcript_path := Spec.transcript (messages c)]> (files c) |}
          | SaveFailed e remains =>
              {| pc := Failed e;
                 messages := messages c;
                 stdin := rest;
                 stdout := prompted;
                 requests := requests c;
                 opened := opened c;
                 files := <[transcript_path := remains]> (files c) |}
          end
        else
          {| pc := Failed (OSError transcript_path);
             messages := messages c;
             stdin := rest;
             stdout := prompted;
             requests := requests c;
             opened := opened c;
             files := files c |}
      else
        {| pc := AwaitingModelReply;
           messages := messages c ++ [user_message line];
           stdin := rest;
           stdout := prompted;
           requests := requests c;
           opened := opened c;
           files := files c |}
  end.
Proof.
  intros Hpc. unfold step. rewrite Hpc.
  unfold await_user_input, bind at 1, input.
  cbn [stdin set_stdout].
  destruct (stdin c) as [|line rest]; [reflexivity |].
  destruct (String.eqb (Py.lower line) "exit").
  - unfold bind. rewrite save_conversation_spec.
    destruct (fs_writable w transcript_path); [| reflexivity].
    cbn [messages set_stdin set_stdout].
    destruct (save_outcome w (messages c)); reflexivity.
  - reflexivity.
Qed.

Lemma step_final (w : World) (c : Config) :
  is_final (pc c) = true -> step w c = c.
Proof. unfold step. destruct (pc c); simpl; intros H; congruence. Qed.

(** ** The input assembler *)

Lemma fold_left_image_files (names acc : list string) :
  fold_left
    (fun image_files file =>
       if is_image_file file
       then (image_files ++ [OsPath.join "images" file])%list
       else image_files)
    names acc
  = (acc ++ map (OsPath.join "images") (List.filter is_image_file names))%list.
Proof.
  revert acc. induction names as [|file names IH]; intros acc; simpl.
  - now rewrite app_nil_r.
  - rewrite IH. destruct (is_image_file file); simpl; [| reflexivity].
    now rewrite <- app_assoc.
Qed.

Lemma get_image_files_spec (w : World) (c : Config) :
  get_image_files w c =
  match discovered w with
  | Some image_files => (c, Return image_files)
  | None => (c, Raise (OSError "images"))
  end.
Proof.
  unfold get_image_files, discovered, bind, os_path_exists, os_listdir, ret.
  destruct (fs_exists w "images"); [| reflexivity].
  destruct (fs_listdir w "images") as [names|]; [| reflexivity].
  now rewrite fold_left_image_files.
Qed.

Lemma encode_images_ok (w : World) (paths : list string) :
  Forall (readable w) paths ->
  forall (acc : list Part) (c : Config),
    encode_images w paths acc c =
    (set_opened (opened c ++ paths) c, Return (acc ++ map (image_part w) paths)%list).
Proof.
  induction 1 as [|p paths Hp _ IH]; intros acc c.
  - simpl. rewrite !app_nil_r. destruct c; reflexivity.
  - cbn [encode_images]. unfold bind at 1, encode_image, bind, read_binary, ret.
    unfold readable in Hp.
    destruct (fs_read w p) as [bytes|] eqn:Hread; [| congruence].
    rewrite IH. cbn [opened set_opened map]. unfold image_part at 2.
    rewrite Hread. cbn [default]. rewrite <- !app_assoc. reflexivity.
Qed.

Lemma encode_images_unreadable (w : World) (before : list string) (p : string)
    (after : list string) :
  Forall (readable w) before ->
  fs_read w p = None ->
  forall (acc : list Part) (c : Config),
    encode_images w (before ++ p :: after) acc c =
    (set_opened (opened c ++ before ++ [p]) c, Raise (OSError p)).
Proof.
  intros Hbefore Hp. induction Hbefore as [|q before Hq _ IH]; intros acc c.
  - cbn [app encode_images]. unfold bind, encode_image, bind, read_binary.
    rewrite Hp. reflexivity.
  - cbn [app encode_images]. unfold bind at 1, encode_image, bind, read_binary, ret.
    unfold readable in Hq.
    destruct (fs_read w q) as [bytes|] eqn:Hread; [| congruence].
    rewrite IH. cbn [opened set_opened]. rewrite <- !app_assoc. reflexivity.
Qed.

(** The assembling move when every picture can be read. *)
Lemma step_assemble_ok (w : World) (c : Config) (initial_review : string)
    (rest image_files : list string) :
  pc c = Assembling ->
  stdin c = initial_review :: rest ->
  discovered w = Some image_files ->
  Forall (readable w) image_files ->
  step w c =
  {| pc := AwaitingModelReply;
     messages := [first_message w initial_review image_files];
     stdin := rest;
     stdout := ((stdout c ++ banner) ++ [loop_notice])%list;
     requests := requests c;
     opened := opened c ++ image_files;
     files := files c |}.
Proof.
  intros Hpc Hin Hfound Hread. unfold step. rewrite Hpc.
  unfold assemble, bind at 1, bind at 1, bind at 1, print, input.
  cbn [stdin set_stdout stdout]. rewrite Hin.
  unfold bind at 1. rewrite get_image_files_spec, Hfound.
  destruct image_files as [|image_path image_files].
  - unfold bind, ret, print. cbn. rewrite app_nil_r, <- !app_assoc. reflexivity.
  - unfold bind at 1, bind at 1. rewrite (encode_images_ok w _ Hread).
    unfold bind, ret, print. cbn. rewrite <- !app_assoc. reflexivity.
Qed.

Lemma readable_split (w : World) (paths : list string) :
  Forall (readable w) paths
  \/ exists before p after,
       paths = (before ++ p :: after)%list
       /\ Forall (readable w) before /\ fs_read w p = None.
Proof.
  induction paths as [|q paths [IH | (before & p & after & -> & Hb & Hp)]].
  - left. constructor.
  - destruct (fs_read w q) as [bytes|] eqn:Hq.
    + left. constructor; [unfold readable; congruence | exact IH].
    + right. exists [], q, paths. repeat split; [constructor | exact Hq].
  - destruct (fs_read w q) as [bytes|] eqn:Hq.
    + right. exists (q :: before), p, after.
      repeat split; [constructor; [unfold readable; congruence | exact Hb] | exact Hp].
    + right. exists [], q, (before ++ p :: after)%list.
      repeat split; [constructor | exact Hq].
Qed.

(** The assembling move when the console has no line to give. *)
Lemma step_assemble_eof (w : World) (c : Config) :
  pc c = Assembling ->
  stdin c = [] ->
  step w c = set_pc (Failed EOFError) (set_stdout (stdout c ++ banner) c).
Proof.
  intros Hpc Hin. unfold step. rewrite Hpc.
  unfold assemble, bind at 1, bind at 1, bind at 1, print, input.
  cbn [stdin set_stdout stdout]. rewrite Hin. cbn.
  rewrite <- !app_assoc. reflexivity.
Qed.

(** The assembling move when [images] exists and cannot be listed. *)
Lemma step_assemble_unlistable (w : World) (c : Config) (initial_review : string)
    (rest : list string) :
  pc c = Assembling ->
  stdin c = initial_review :: rest ->
  discovered w = None ->
  step w c =
  set_pc (Failed (OSError "images"))
    (set_stdin rest (set_stdout (stdout c ++ banner) c)).
Proof.
  intros Hpc Hin Hfound. unfold step. rewrite Hpc.
  unfold assemble, bind at 1, bind at 1, bind at 1, print, input.
  cbn [stdin set_stdout stdout]. rewrite Hin.
  unfold bind at 1. rewrite get_image_files_spec, Hfound. cbn.
  rewrite <- !app_assoc. reflexivity.
Qed.

(** The assembling move when a picture cannot be read: the run stops at the
    first such file, before the first message exists. *)
Lemma step_assemble_unreadable (w : World) (c : Config) (initial_review : string)
    (rest before : list string) (p : string) (after : list string) :
  pc c = Assembling ->
  stdin c = initial_review :: rest ->
  discovered w = Some (before ++ p :: after)%list ->
  Forall (readable w) before ->
  fs_read w p = None ->
  step w c =
  {| pc := Failed (OSError p);
     messages := messages c;
     stdin := rest;
     stdout := stdout c ++ banner;
     requests := requests c;
     opened := opened c ++ before ++ [p];
     files := files c |}.
Proof.
  intros Hpc Hin Hfound Hbefore Hp. unfold step. rewrite Hpc.
  unfold assemble, bind at 1, bind at 1, bind at 1, print, input.
  cbn [stdin set_stdout stdout]. rewrite Hin.
  unfold bind at 1. rewrite get_image_files_spec, Hfound.
  assert (Hcons : exists q l, (before ++ p :: after)%list = q :: l).
  { destruct before; simpl; eauto. }
  destruct Hcons as (q & l & Hcons). rewrite Hcons at 1.
  unfold bind at 1, bind at 1.
  rewrite (encode_images_unreadable w _ _ _ Hbefore Hp).
  cbn. rewrite <- !app_assoc. reflexivity.
Qed.

(** The assembling move, in all its cases. *)
Lemma step_assemble (w : World) (c : Config) :
  pc c = Assembling -> assembled w c (step w c).
Proof.
  intros Hpc. destruct (stdin c) as [|initial_review rest] eqn:Hin.
  - rewrite step_assemble_eof by assumption. now constructor.
  - destruct (discovered w) as [image_files|] eqn:Hfound.
    + destruct (readable_split w image_files)
        as [Hread | (before & p & after & -> & Hbefore & Hp)].
      * rewrite (step_assemble_ok w c initial_review rest image_files) by assumption.
        now constructor.
      * rewrite (step_assemble_unreadable w c initial_review rest before p after)
          by assumption.
        now apply (assembled_unreadable w c initial_review rest before p after).
    + rewrite (step_assemble_unlistable w c initial_review rest) by assumption.
      now apply (assembled_unlistable w c initial_review).
Qed.

(** The two moves of the loop, case by case. *)
Ltac case_reply w c Hpc :=
  rewrite (step_await_model_reply w c Hpc); cbv zeta;
  destruct (remote w _ _) as [|[|[?text|] ?more]] eqn:?Hremote.

Ltac case_input w c Hpc :=
  rewrite (step_await_user_input w c Hpc); cbv zeta;
  destruct (stdin c) as [|?line ?rest] eqn:?Hstdin;
  [| destruct (String.eqb (Py.lower line) "exit") eqn:?Hexit;
     [destruct (fs_writable w transcript_path) eqn:?Hwritable;
      [destruct (save_outcome w (messages c)) as [?written|?e ?remains] eqn:?Hsave |]
     |]].

(** ** The invariant of a run *)

Lemma even_double (n : nat) : Nat.even (2 * n) = true.
Proof.
  induction n as [|n IH]; [reflexivity |].
  replace (2 * S n) with (S (S (2 * n))) by lia. exact IH.
Qed.

Lemma even_succ_double (n : nat) : Nat.even (1 + 2 * n) = false.
Proof.
  induction n as [|n IH]; [reflexivity |].
  replace (1 + 2 * S n) with (S (S (1 + 2 * n))) by lia. exact IH.
Qed.

Lemma alternating_snoc (msgs : list Message) (m : Message) :
  Spec.alternating msgs ->
  role m = Spec.expected_role (List.length msgs) ->
  Spec.alternating (msgs ++ [m]).
Proof.
  unfold Spec.alternating. intros Hmsgs Hm.
  rewrite map_app, length_app. cbn [List.length]. rewrite Nat.add_1_r.
  rewrite seq_S, map_app, Hmsgs. cbn [map Nat.add]. rewrite Hm. reflexivity.
Qed.

Lemma requests_logged_grow (c c' : Config) (tail : list Message) :
  requests_logged c ->
  2 * List.length (requests c) <= 1 + List.length (messages c) ->
  messages c' = (messages c ++ tail)%list ->
  requests c' = requests c ->
  requests_logged c'.
Proof.
  unfold requests_logged. intros Hlog Hlen Hmsgs Hreqs.
  rewrite Hreqs, Hmsgs. rewrite Hlog at 1.
  apply map_ext_in. intros k Hk. apply in_seq in Hk.
  rewrite firstn_app.
  replace (1 + 2 * k - List.length (messages c)) with 0 by lia.
  cbn [firstn]. now rewrite app_nil_r.
Qed.

Lemma requests_logged_send (c c' : Config) :
  requests_logged c ->
  List.length (messages c) = 1 + 2 * List.length (requests c) ->
  messages c' = messages c ->
  requests c' = (requests c ++ [request_for (messages c)])%list ->
  requests_logged c'.
Proof.
  unfold requests_logged. intros Hlog Hlen Hmsgs Hreqs.
  rewrite Hreqs, Hmsgs, length_app. cbn [List.length]. rewrite Nat.add_1_r.
  rewrite seq_S, map_app, <- Hlog. cbn [map Nat.add].
  change (S (2 * List.length (requests c))) with (1 + 2 * List.length (requests c)).
  rewrite <- Hlen, firstn_all. reflexivity.
Qed.

Lemma replies_kept_grow (w : World) (c c' : Config) (m : Message) :
  replies_kept w c ->
  messages c' = (messages c ++ [m])%list ->
  (forall k,
     1 + 2 * k = List.length (messages c) ->
     exists text more,
       remote w k (request_for (messages c)) = Reply (TextBlock text :: more)
       /\ m = assistant_message text) ->
  replies_kept w c'.
Proof.
  unfold replies_kept. intros Hkept Hmsgs Hnew k Hk.
  rewrite Hmsgs in *. rewrite length_app in Hk. cbn [List.length] in Hk.
  destruct (Nat.eq_dec (1 + 2 * k) (List.length (messages c))) as [Heq | Hne].
  - destruct (Hnew k Heq) as (text & more & Hremote & ->).
    exists text, more. rewrite Heq, firstn_app, firstn_all, Nat.sub_diag.
    cbn [firstn]. rewrite app_nil_r. split; [exact Hremote |].
    rewrite nth_error_app2, Nat.sub_diag by lia. reflexivity.
  - destruct (Hkept k) as (text & more & Hremote & Hnth); [lia |].
    exists text, more. rewrite firstn_app.
    replace (1 + 2 * k - List.length (messages c)) with 0 by lia.
    cbn [firstn]. rewrite app_nil_r. split; [exact Hremote |].
    rewrite nth_error_app1 by lia. exact Hnth.
Qed.

Lemma replies_kept_same (w : World) (c c' : Config) :
  replies_kept w c -> messages c' = messages c -> replies_kept w c'.
Proof. unfold replies_kept. intros Hkept ->. exact Hkept. Qed.

Lemma Inv_init (w : World) : Inv w (init w).
Proof.
  split.
  - reflexivity.
  - reflexivity.
  - reflexivity.
  - intros k Hk. cbn in Hk. lia.
  - constructor.
  - exists []. reflexivity.
Qed.

Lemma first_message_origin (w : World) (initial_review : string)
    (rest image_files : list string) :
  w_stdin w = initial_review :: rest ->
  discovered w = Some image_files ->
  Forall (readable w) image_files ->
  origin w (first_message w initial_review image_files).
Proof.
  intros Hin Hfound Hread. apply origin_first.
  rewrite (step_assemble_ok w (init w) initial_review rest image_files);
    [reflexivity | reflexivity | exact Hin | exact Hfound | exact Hread].
Qed.

(** A move that stops the run before the first message exists. *)
Lemma Inv_stopped_early (w : World) (c : Config) (e : Error) :
  pc c = Failed e ->
  messages c = [] ->
  requests c = [] ->
  files c = w_files w ->
  (exists consumed, w_stdin w = (consumed ++ stdin c)%list) ->
  Inv w c.
Proof.
  intros Hpc Hmsgs Hreqs Hfiles Hin. split.
  - unfold progress. rewrite Hpc, Hmsgs, Hreqs. cbn. split; [lia | left; exact Hfiles].
  - rewrite Hmsgs. reflexivity.
  - unfold requests_logged. rewrite Hreqs. reflexivity.
  - intros k Hk. rewrite Hmsgs in Hk. cbn in Hk. lia.
  - rewrite Hmsgs. constructor.
  - exact Hin.
Qed.

Lemma Inv_step_assembling (w : World) : Inv w (step w (init w)).
Proof.
  destruct (step_assemble w (init w) eq_refl)
    as [Hin | r rest Hin Hfound | r rest before p after Hin Hfound Hbefore Hp
        | r rest image_files Hin Hfound Hread];
    cbn [stdin init] in Hin.
  - apply (Inv_stopped_early w _ EOFError); try reflexivity.
    exists []. cbn. now rewrite Hin.
  - apply (Inv_stopped_early w _ (OSError "images")); try reflexivity.
    exists [r]. cbn. now rewrite Hin.
  - apply (Inv_stopped_early w _ (OSError p)); try reflexivity.
    exists [r]. cbn. now rewrite Hin.
  - split; cbn.
    + rewrite Hin. cbn. repeat split; lia.
    + reflexivity.
    + reflexivity.
    + intros k Hk. cbn in Hk. lia.
    + constructor; [| constructor].
      now apply (first_message_origin w r rest).
    + exists [r]. now rewrite Hin.
Qed.

Lemma Inv_step_reply (w : World) (c : Config) :
  pc c = AwaitingModelReply -> Inv w c -> Inv w (step w c).
Proof.
  intros Hpc [Hprog Halt Hreq Hkept Horig [consumed Hin]].
  unfold progress in Hprog. rewrite Hpc in Hprog.
  destruct Hprog as (Hlen & Hlines & Hfiles).
  case_reply w c Hpc.
  1-2, 4:
    split; cbn;
    [ split; [rewrite length_app; cbn; lia | left; exact Hfiles]
    | exact Halt
    | apply (requests_logged_send c); [exact Hreq | exact Hlen | reflexivity | reflexivity]
    | exact Hkept
    | exact Horig
    | exists consumed; exact Hin ].
  split; cbn.
  - rewrite !length_app. cbn. repeat split; [lia | lia | exact Hfiles | lia].
  - apply alternating_snoc; [exact Halt |].
    rewrite Hlen. unfold Spec.expected_role. now rewrite even_succ_double.
  - pose (c1 := set_requests (requests c ++ [request_for (messages c)]) c).
    apply (requests_logged_grow c1 _ [assistant_message text]).
    + apply (requests_logged_send c); [exact Hreq | exact Hlen | reflexivity | reflexivity].
    + cbn. rewrite length_app. cbn. lia.
    + reflexivity.
    + reflexivity.
  - apply (replies_kept_grow w c _ (assistant_message text) Hkept); [reflexivity |].
    intros k Hk. assert (k = List.length (requests c)) as -> by lia.
    exists text, more. split; [exact Hremote | reflexivity].
  - apply Forall_app. split; [exact Horig |].
    constructor; [| constructor]. eapply origin_reply. exact Hremote.
  - exists consumed. exact Hin.
Qed.

Lemma Inv_step_input (w : World) (c : Config) :
  pc c = AwaitingUserInput -> Inv w c -> Inv w (step w c).
Proof.
  intros Hpc [Hprog Halt Hreq Hkept Horig [consumed Hin]].
  unfold progress in Hprog. rewrite Hpc in Hprog.
  destruct Hprog as (Hlen & Hlines & Hfiles & Hsome).
  rewrite (step_await_user_input w c Hpc). cbv zeta.
  destruct (stdin c) as [|line rest] eqn:Hstdin.
  - split; cbn; [split; [lia | left; exact Hfiles] | exact Halt | exact Hreq
                 | exact Hkept | exact Horig |].
    exists consumed. now rewrite Hstdin.
  - assert (Hrest : exists consumed', w_stdin w = (consumed' ++ rest)%list).
    { exists (consumed ++ [line])%list. now rewrite <- app_assoc. }
    cbn [List.length] in Hlines.
    destruct (String.eqb (Py.lower line) "exit") eqn:Hexit.
    + destruct (fs_writable w transcript_path) eqn:Hwritable.
      * destruct (save_outcome w (messages c)) as [written|e remains] eqn:Hsave.
        -- split; cbn;
             [| exact Halt | exact Hreq | exact Hkept | exact Horig | exact Hrest].
           repeat split; [exact Hlen | lia | now rewrite Hfiles | exact Hsome].
        -- split; cbn;
             [| exact Halt | exact Hreq | exact Hkept | exact Horig | exact Hrest].
           split; [lia |]. right. exists remains.
           split; [exact Hsave |]. split; [now rewrite Hfiles |].
           split; [exact Hwritable |].
           exists line. split; [| now apply String.eqb_eq].
           destruct consumed as [|review consumed].
           ++ rewrite Hin, length_app in Hlines. cbn in Hlines. lia.
           ++ rewrite Hin. cbn [tl app]. apply in_or_app. right. now left.
      * split; cbn; [split; [lia | left; exact Hfiles] | exact Halt | exact Hreq
                     | exact Hkept | exact Horig | exact Hrest].
    + split; cbn.
      * rewrite length_app. cbn. repeat split; [lia | lia | exact Hfiles].
      * apply alternating_snoc; [exact Halt |].
        rewrite Hlen. unfold Spec.expected_role. now rewrite even_double.
      * apply (requests_logged_grow c _ [user_message line]);
          [exact Hreq | lia | reflexivity | reflexivity].
      * apply (replies_kept_grow w c _ (user_message line) Hkept); [reflexivity |].
        intros k Hk. lia.
      * apply Forall_app. split; [exact Horig |].
        constructor; [| constructor]. apply origin_line.
        rewrite Hin. apply in_or_app. right. now left.
      * exact Hrest.
Qed.

Lemma Inv_step (w : World) (c : Config) : Inv w c -> Inv w (step w c).
Proof.
  intros HI. destruct (pc c) eqn:Hpc.
  - pose proof (inv_progress w c HI) as Hprog.
    unfold progress in Hprog. rewrite Hpc in Hprog. subst c.
    apply Inv_step_assembling.
  - now apply Inv_step_reply.
  - now apply Inv_step_input.
  - rewrite step_final; [exact HI | now rewrite Hpc].
  - rewrite step_final; [exact HI | now rewrite Hpc].
Qed.

Lemma reachable_Inv (w : World) (c : Config) : reachable w c -> Inv w c.
Proof.
  induction 1 as [|c _ IH]; [apply Inv_init | now apply Inv_step].
Qed.

Lemma reachable_run (w : World) (n : nat) (c : Config) :
  reachable w c -> reachable w (run w n c).
Proof.
  revert c. induction n as [|n IH]; intros c Hc; [exact Hc |].
  cbn [run]. apply IH. now constructor.
Qed.

(** ** The sentinel *)

Lemma ascii_lower_e (a : ascii) :
  Py.ascii_lower a = "e"%char -> a = "e"%char \/ a = "E"%char.
Proof.
  destruct a as [[] [] [] [] [] [] [] []]; cbv; intros H;
    solve [discriminate H | left; reflexivity | right; reflexivity].
Qed.

Lemma ascii_lower_x (a : ascii) :
  Py.ascii_lower a = "x"%char -> a = "x"%char \/ a = "X"%char.
Proof.
  destruct a as [[] [] [] [] [] [] [] []]; cbv; intros H;
    solve [discriminate H | left; reflexivity | right; reflexivity].
Qed.

Lemma ascii_lower_i (a : ascii) :
  Py.ascii_lower a = "i"%char -> a = "i"%char \/ a = "I"%char.
Proof.
  destruct a as [[] [] [] [] [] [] [] []]; cbv; intros H;
    solve [discriminate H | left; reflexivity | right; reflexivity].
Qed.

Lemma ascii_lower_t (a : ascii) :
  Py.ascii_lower a = "t"%char -> a = "t"%char \/ a = "T"%char.
Proof.
  destruct a as [[] [] [] [] [] [] [] []]; cbv; intros H;
    solve [discriminate H | left; reflexivity | right; reflexivity].
Qed.

(** [line.lower() == 'exit'] holds of the sixteen spellings and of nothing
    else. *)
Lemma lower_exit_iff (line : string) :
  Py.lower line = "exit" <-> In line Spec.sentinel_spellings.
Proof.
  split.
  - destruct line as [|a [|b [|c [|d [|e line]]]]]; cbn [Py.lower Py.str_map];
      intros H; try discriminate H.
    injection H as Ha Hb Hc Hd.
    apply ascii_lower_e in Ha. apply ascii_lower_x in Hb.
    apply ascii_lower_i in Hc. apply ascii_lower_t in Hd.
    destruct Ha as [-> | ->], Hb as [-> | ->], Hc as [-> | ->], Hd as [-> | ->];
      cbn; auto 20.
  - intros H. cbn in H.
    repeat (destruct H as [<- | H]; [reflexivity |]). destruct H.
Qed.

(** C1: at the console read of the loop, a line that is one of the
    spellings of [exit] ends the run, whichever spelling it is, and leaves
    the conversation as it was; any other line is appended as a user message
    and the loop goes back to the remote call. *)
Theorem C1_sentinel_ends_the_loop (w : World) (c : Config) (line : string)
    (rest : list string) :
  pc c = AwaitingUserInput ->
  stdin c = line :: rest ->
  (In line Spec.sentinel_spellings ->
     is_final (pc (step w c)) = true
     /\ (fs_writable w transcript_path = true ->
         transcript_storable w ->
         pc (step w c) = Terminated)
     /\ messages (step w c) = messages c
     /\ forall line',
          In line' Spec.sentinel_spellings ->
          step w (set_stdin (line' :: rest) c) = step w c)
  /\ (~ In line Spec.sentinel_spellings ->
      pc (step w c) = AwaitingModelReply
      /\ messages (step w c) = (messages c ++ [user_message line])%list
      /\ stdin (step w c) = rest).
Proof.
  intros Hpc Hin. split.
  - intros Hline. apply lower_exit_iff in Hline.
    assert (Hstep : forall l, Py.lower l = "exit" ->
              step w (set_stdin (l :: rest) c) =
              if fs_writable w transcript_path then
                match save_outcome w (messages c) with
                | SavedAll _ =>
                    {| pc := Terminated; messages := messages c; stdin := rest;
                       stdout := (stdout c ++ ["> "])
                                 ++ [Py.nl
                                     ++ "Conversation saved to 'amazon_review_conversation.txt'"
                                     ++ Py.nl];
                       requests := requests c; opened := opened c;
                       files := <[transcript_path := Spec.transcript (messages c)]>
                                  (files c) |}
                | SaveFailed e remains =>
                    {| pc := Failed e; messages := messages c; stdin := rest;
                       stdout := stdout c ++ ["> "];
                       requests := requests c; opened := opened c;
                       files := <[transcript_path := remains]> (files c) |}
                end
              else
                {| pc := Failed (OSError transcript_path); messages := messages c;
                   stdin := rest; stdout := stdout c ++ ["> "];
                   requests := requests c; opened := opened c; files := files c |}).
    { intros l Hl. rewrite step_await_user_input by exact Hpc.
      cbn. rewrite Hl. reflexivity. }
    assert (Hc : set_stdin (line :: rest) c = c).
    { rewrite <- Hin. destruct c; reflexivity. }
    pose proof (Hstep line Hline) as Hhere. rewrite Hc in Hhere.
    split; [| split; [| split]].
    + rewrite Hhere. destruct (fs_writable w transcript_path);
        [destruct (save_outcome w (messages c)) |]; reflexivity.
    + intros Hw Hstorable.
      rewrite Hhere, Hw, (save_outcome_storable _ _ Hstorable). reflexivity.
    + rewrite Hhere. destruct (fs_writable w transcript_path);
        [destruct (save_outcome w (messages c)) |]; reflexivity.
    + intros line' Hline'. apply lower_exit_iff in Hline'.
      rewrite Hhere. apply Hstep. exact Hline'.
  - intros Hline. rewrite step_await_user_input by exact Hpc. rewrite Hin.
    cbv zeta. destruct (String.eqb_spec (Py.lower line) "exit") as [Heq | Hne].
    + apply lower_exit_iff in Heq. contradiction.
    + repeat split.
Qed.

Lemma C1_sentinel_ends_the_loop_witness :
  pc (step blender_world blender_at_console) = Terminated
  /\ messages (step blender_world blender_at_console) = messages blender_at_console.
Proof.
  destruct (C1_sentinel_ends_the_loop blender_world blender_at_console "Exit" [])
    as [Hexit _]; [reflexivity | reflexivity |].
  destruct Hexit as (_ & Hdone & Hsame & _); [cbn; auto 20 |].
  split; [apply Hdone; [reflexivity | split; reflexivity] | exact Hsame].
Defined.

(** ** Every run ends *)

Lemma run_final (w : World) (n : nat) (c : Config) :
  is_final (pc c) = true -> run w n c = c.
Proof.
  intros Hc. induction n as [|n IH]; [reflexivity |].
  cbn [run]. now rewrite step_final.
Qed.

Lemma step_assemble_cases (w : World) (c : Config) :
  pc c = Assembling ->
  (exists e, pc (step w c) = Failed e)
  \/ (pc (step w c) = AwaitingModelReply
      /\ exists initial_review, stdin c = initial_review :: stdin (step w c)).
Proof.
  intros Hpc. destruct (step_assemble w c Hpc); cbn [pc stdin set_pc];
    [left; eexists; reflexivity .. |].
  right. split; [reflexivity |]. eexists. eassumption.
Qed.

Lemma step_moves_left (w : World) (c : Config) :
  is_final (pc c) = false -> moves_left (step w c) < moves_left c.
Proof.
  intros Hrun. destruct (pc c) eqn:Hpc; try discriminate Hrun.
  - destruct (step_assemble_cases w c Hpc) as [[e He] | [Hnext [r Hin]]];
      unfold moves_left; rewrite Hpc.
    + rewrite He. lia.
    + rewrite Hnext, Hin. cbn [List.length]. lia.
  - unfold moves_left at 2. rewrite Hpc.
    case_reply w c Hpc; unfold moves_left; cbn; lia.
  - unfold moves_left at 2. rewrite Hpc.
    case_input w c Hpc; unfold moves_left; cbn; lia.
Qed.

Lemma run_ends (w : World) (n : nat) (c : Config) :
  moves_left c <= n -> is_final (pc (run w n c)) = true.
Proof.
  revert c. induction n as [|n IH]; intros c Hn.
  - cbn [run]. destruct (pc c) eqn:Hpc; try reflexivity;
      unfold moves_left in Hn; rewrite Hpc in Hn; lia.
  - cbn [run]. destruct (is_final (pc c)) eqn:Hfin.
    + rewrite step_final by exact Hfin. rewrite run_final by exact Hfin. exact Hfin.
    + apply IH. pose proof (step_moves_left w c Hfin). lia.
Qed.

(** The script always comes to an end, normally or with an error. *)
Theorem create_amazon_review_ends (w : World) :
  is_final (pc (create_amazon_review w)) = true.
Proof. unfold create_amazon_review. apply run_ends. reflexivity. Qed.

Lemma create_amazon_review_reachable (w : World) :
  reachable w (create_amazon_review w).
Proof. apply reachable_run. constructor. Qed.

(** ** The transcript *)

(** C2: when the run ends normally, the file
    [amazon_review_conversation.txt] holds, whatever it held before, one
    block per message of the conversation, in order, each made of the
    upper-cased role, a colon, a space, the text of the message (for a
    message in parts, the text parts only) and a blank line; no other file
    is touched. *)
Theorem C2_transcript_written (w : World) (c : Config) :
  reachable w c ->
  pc c = Terminated ->
  files c !! "amazon_review_conversation.txt"
  = Some (Py.join (map Spec.transcript_block (messages c)))
  /\ List.length (map Spec.transcript_block (messages c)) = List.length (messages c)
  /\ (forall m, In m (messages c) ->
        exists text,
          Spec.transcript_block m
          = Py.upper (role m) ++ ": " ++ text ++ Py.nl ++ Py.nl
          /\ match content m with
             | Str s => text = s
             | Parts items =>
                 text = Py.join (map Spec.part_text (List.filter Spec.is_text_part items))
             end)
  /\ (forall path,
        path <> "amazon_review_conversation.txt" ->
        files c !! path = w_files w !! path).
Proof.
  intros Hreach Hpc. pose proof (inv_progress w c (reachable_Inv w c Hreach)) as Hprog.
  unfold progress in Hprog. rewrite Hpc in Hprog.
  destruct Hprog as (_ & _ & Hfiles & _).
  split; [| split; [| split]].
  - rewrite Hfiles. apply lookup_insert_eq.
  - apply length_map.
  - intros m _. exists (Spec.message_text (content m)).
    split; [reflexivity | destruct (content m); reflexivity].
  - intros path Hpath. rewrite Hfiles. apply lookup_insert_ne.
    intros Heq. apply Hpath. symmetry. exact Heq.
Qed.

Lemma C2_transcript_written_witness :
  files (create_amazon_review blender_world) !! "amazon_review_conversation.txt"
  = Some
      (Py.join
         (map Spec.transcript_block (messages (create_amazon_review blender_world)))).
Proof.
  apply (C2_transcript_written blender_world (create_amazon_review blender_world)).
  - apply create_amazon_review_reachable.
  - reflexivity.
Defined.

(** The file of the blender run, spelled out. *)
Example blender_transcript :
  files (create_amazon_review blender_world) !! transcript_path
  = Some "USER: Here is my initial product review:

Great blender, but lid leaks



ASSISTANT: How long have you used it?

USER: About a month

ASSISTANT: Here is a draft.

".
Proof. vm_compute. reflexivity. Qed.

(** ** The first message *)

Lemma discovered_absent (w : World) :
  fs_exists w "images" = false -> discovered w = Some [].
Proof. unfold discovered. now intros ->. Qed.

Lemma filter_none {A} (f : A -> bool) (l : list A) :
  Forall (fun x => f x = false) l -> List.filter f l = [].
Proof.
  induction 1 as [|x l Hx _ IH]; [reflexivity |].
  cbn [List.filter]. now rewrite Hx.
Qed.

Lemma discovered_unrecognised (w : World) (names : list string) :
  fs_listdir w "images" = Some names ->
  Forall (fun file => is_image_file file = false) names ->
  discovered w = Some [].
Proof.
  intros Hls Hnone. unfold discovered. rewrite Hls.
  rewrite (filter_none _ _ Hnone). now destruct (fs_exists w "images").
Qed.

(** C3: with no [images] folder, the first message is a user message whose
    content is the single text part holding the heading, a blank line, the
    review as typed and another blank line, and that is what the first
    request carries; for the review of the blender the text is the one the
    specification spells out. *)
Theorem C3_first_message_without_images (w : World) (initial_review : string)
    (rest : list string) :
  w_stdin w = initial_review :: rest ->
  fs_exists w "images" = false ->
  pc (step w (init w)) = AwaitingModelReply
  /\ messages (step w (init w))
     = [ {| role := "user";
            content :=
              Parts
                [ TextPart
                    ("Here is my initial product review:" ++ Py.nl ++ Py.nl
                     ++ initial_review ++ Py.nl ++ Py.nl) ] |} ]
  /\ map req_messages (requests (run w 2 (init w)))
     = [ messages (step w (init w)) ]
  /\ (initial_review = "Great blender, but lid leaks" ->
      messages (step w (init w))
      = [ {| role := "user";
             content :=
               Parts
                 [ TextPart "Here is my initial product review:

Great blender, but lid leaks

" ] |} ]).
Proof.
  intros Hin Habsent.
  assert (Hstep : step w (init w) =
            {| pc := AwaitingModelReply;
               messages := [first_message w initial_review []];
               stdin := rest;
               stdout := (([] ++ banner) ++ [loop_notice])%list;
               requests := [];
               opened := [] ++ [];
               files := w_files w |}).
  { apply (step_assemble_ok w (init w) initial_review rest []);
      [reflexivity | exact Hin | now apply discovered_absent | constructor]. }
  split; [| split; [| split]].
  - now rewrite Hstep.
  - now rewrite Hstep.
  - cbn [run]. rewrite (step_await_model_reply w (step w (init w))) by now rewrite Hstep.
    cbv zeta. rewrite Hstep. cbn [messages requests List.length app].
    destruct (remote w _ _) as [|[|[text|] more]]; reflexivity.
  - intros ->. now rewrite Hstep.
Qed.

Lemma C3_first_message_without_images_witness :
  messages (step blender_world (init blender_world))
  = [ {| role := "user";
         content :=
           Parts
             [ TextPart
                 ("Here is my initial product review:" ++ Py.nl ++ Py.nl
                  ++ "Great blender, but lid leaks" ++ Py.nl ++ Py.nl) ] |} ].
Proof.
  apply (C3_first_message_without_images blender_world
           "Great blender, but lid leaks" ["About a month"; "Exit"]);
    reflexivity.
Defined.

(** ** Facts about strings *)

Lemma str_length_app (s t : string) :
  String.length (s ++ t) = String.length s + String.length t.
Proof.
  induction s as [|a s IH]; [reflexivity |].
  rewrite str_app_cons. cbn [String.length]. now rewrite IH.
Qed.

Lemma slice_split (k : nat) (s : string) :
  s = Py.slice_to k s ++ Py.slice_from k s.
Proof.
  revert s. induction k as [|k IH]; intros s; [reflexivity |].
  destruct s as [|a s]; [reflexivity |].
  cbn [Py.slice_to Py.slice_from]. rewrite str_app_cons. now rewrite <- IH.
Qed.

Lemma slice_from_app (p t : string) :
  Py.slice_from (String.length p) (p ++ t) = t.
Proof. induction p as [|a p IH]; [reflexivity | exact IH]. Qed.

Lemma endswith_iff (s suf : string) :
  Py.endswith s suf = true <-> exists p, s = p ++ suf.
Proof.
  unfold Py.endswith. split.
  - intros H. apply andb_true_iff in H as [_ H]. apply String.eqb_eq in H.
    exists (Py.slice_to (String.length s - String.length suf) s).
    rewrite <- H at 2. apply slice_split.
  - intros [p ->]. rewrite str_length_app. apply andb_true_iff. split.
    + apply Nat.leb_le. lia.
    + replace (String.length p + String.length suf - String.length suf)
        with (String.length p) by lia.
      rewrite slice_from_app. apply String.eqb_refl.
Qed.

Lemma lower_app (s t : string) : Py.lower (s ++ t) = Py.lower s ++ Py.lower t.
Proof.
  unfold Py.lower. induction s as [|a s IH]; [reflexivity |].
  rewrite str_app_cons. cbn [Py.str_map]. rewrite str_app_cons. now rewrite IH.
Qed.

Lemma lower_split (s p q : string) :
  Py.lower s = p ++ q ->
  exists s1 s2, s = s1 ++ s2 /\ Py.lower s1 = p /\ Py.lower s2 = q.
Proof.
  revert s. induction p as [|a p IH]; intros s H.
  - exists EmptyString, s. repeat split. exact H.
  - destruct s as [|b s]; [discriminate H |].
    rewrite str_app_cons in H. cbn [Py.lower Py.str_map] in H.
    injection H as Hb Hs. destruct (IH s Hs) as (s1 & s2 & -> & H1 & H2).
    exists (String b s1), s2. repeat split; [| exact H2].
    cbn [Py.lower Py.str_map]. f_equal; [exact Hb | exact H1].
Qed.

(** The test of [get_image_files] is the recognition of the
    specification. *)
Lemma is_image_file_iff (file : string) :
  is_image_file file = true <-> Spec.recognised file.
Proof.
  unfold is_image_file, Spec.recognised, image_extensions. split.
  - intros H. apply existsb_exists in H as (ext & Hext & Hends).
    apply endswith_iff in Hends as [p Hp].
    apply lower_split in Hp as (stem & e & -> & _ & He).
    exists stem, e. split; [reflexivity | now rewrite He].
  - intros (stem & e & -> & He). apply existsb_exists.
    exists (Py.lower e). split; [exact He |].
    apply endswith_iff. exists (Py.lower stem). apply lower_app.
Qed.

Lemma is_image_file_false (file : string) :
  ~ Spec.recognised file -> is_image_file file = false.
Proof.
  intros H. destruct (is_image_file file) eqn:E; [| reflexivity].
  apply is_image_file_iff in E. contradiction.
Qed.

Lemma startswith_nil (s : string) : Py.startswith s EmptyString = true.
Proof. destruct s; reflexivity. Qed.

Lemma startswith_app_break (c : ascii) (t r needle : string) :
  Py.free_of c needle = true ->
  Py.startswith (r ++ String c t) needle = Py.startswith r needle.
Proof.
  revert needle. induction r as [|a r IH]; intros needle Hfree.
  - rewrite str_app_nil_l. destruct needle as [|b needle]; [reflexivity |].
    cbn [Py.free_of] in Hfree. apply andb_true_iff in Hfree as [Hb _].
    cbn [Py.startswith]. apply negb_true_iff in Hb. now rewrite Hb.
  - rewrite str_app_cons. destruct needle as [|b needle]; [reflexivity |].
    cbn [Py.free_of] in Hfree. apply andb_true_iff in Hfree as [_ Hfree].
    cbn [Py.startswith]. now rewrite IH.
Qed.

Lemma contains_cons (a : ascii) (s needle : string) :
  Py.contains (String a s) needle
  = Py.startswith (String a s) needle || Py.contains s needle.
Proof. reflexivity. Qed.

Lemma contains_app_break (c : ascii) (t r needle : string) :
  Py.free_of c needle = true ->
  needle <> EmptyString ->
  Py.contains (r ++ String c t) needle
  = Py.contains r needle || Py.contains (String c t) needle.
Proof.
  intros Hfree Hne. induction r as [|a r IH].
  - rewrite str_app_nil_l. destruct needle; [contradiction | reflexivity].
  - rewrite str_app_cons, !contains_cons, IH.
    rewrite <- str_app_cons, (startswith_app_break c t _ needle Hfree).
    now rewrite orb_assoc.
Qed.

(** The heading and the blank lines around a review bring no announcement
    of pictures with them. *)
Lemma review_text_phrase (initial_review : string) :
  Py.contains initial_review Spec.images_phrase = false ->
  Py.contains (Spec.review_text initial_review) Spec.images_phrase = false.
Proof.
  intros Hreview. unfold Spec.review_text.
  change (Py.nl ++ Py.nl ++ initial_review ++ Py.nl ++ Py.nl)
    with (String "010" (String "010" (initial_review ++ String "010" (String "010" EmptyString)))).
  rewrite (contains_app_break "010") by (reflexivity || discriminate).
  rewrite !contains_cons.
  rewrite (contains_app_break "010") by (reflexivity || discriminate).
  rewrite Hreview. reflexivity.
Qed.

(** C6: when the [images] folder is absent, or lists no file with a
    recognised extension, the assembling succeeds without opening any file,
    and the content of the first message is a single text part, with no
    image part, whose text is the review between its heading and blank lines
    and nothing more: the sentence that announces pictures is not added, so
    that the words "sharing some images" are in the text only if the
    operator typed them. *)
Theorem C6_no_images_no_error (w : World) (initial_review : string)
    (rest : list string) :
  w_stdin w = initial_review :: rest ->
  (fs_exists w "images" = false
   \/ exists names,
        fs_listdir w "images" = Some names
        /\ Forall (fun file => ~ Spec.recognised file) names) ->
  pc (step w (init w)) = AwaitingModelReply
  /\ opened (step w (init w)) = []
  /\ exists text,
       messages (step w (init w))
       = [ {| role := "user"; content := Parts [TextPart text] |} ]
       /\ List.filter Spec.is_image_part [TextPart text] = []
       /\ text = "Here is my initial product review:" ++ Py.nl ++ Py.nl
                 ++ initial_review ++ Py.nl ++ Py.nl
       /\ (Py.contains initial_review "sharing some images" = false ->
           Py.contains text "sharing some images" = false).
Proof.
  intros Hin Hnone.
  assert (Hfound : discovered w = Some []).
  { destruct Hnone as [Habsent | (names & Hls & Hnames)].
    - now apply discovered_absent.
    - apply (discovered_unrecognised w names Hls).
      eapply Forall_impl; [exact Hnames |].
      intros file. apply is_image_file_false. }
  rewrite (step_assemble_ok w (init w) initial_review rest [])
    by (reflexivity || assumption || constructor).
  split; [reflexivity | split; [reflexivity |]].
  exists (Spec.review_text initial_review).
  split; [reflexivity | split; [reflexivity | split; [reflexivity |]]].
  apply review_text_phrase.
Qed.

Lemma C6_no_images_no_error_witness :
  pc (step blender_world (init blender_world)) = AwaitingModelReply
  /\ opened (step blender_world (init blender_world)) = [].
Proof.
  destruct (C6_no_images_no_error blender_world "Great blender, but lid leaks"
              ["About a month"; "Exit"]) as (Hpc & Hopened & _).
  - reflexivity.
  - left. reflexivity.
  - split; [exact Hpc | exact Hopened].
Defined.

(** ** Unreadable pictures *)

Lemma Forall_readable_In (w : World) (paths : list string) (p : string) :
  Forall (readable w) paths -> In p paths -> fs_read w p <> None.
Proof.
  intros Hall Hp. rewrite Forall_forall in Hall. apply Hall.
  apply list_elem_of_In. exact Hp.
Qed.

(** C7: when a file of the [images] folder with a recognised extension
    cannot be read, the run stops with the error of the first such file:
    the files before it were each opened once, the failing one once and no
    other after it, no request has gone to the remote model, no message was
    built from the pictures read so far, and nothing was written. *)
Theorem C7_unreadable_image_aborts (w : World) (names : list string)
    (file : string) :
  fs_exists w "images" = true ->
  fs_listdir w "images" = Some names ->
  In file names ->
  Spec.recognised file ->
  fs_read w (OsPath.join "images" file) = None ->
  exists before p after,
    map (OsPath.join "images") (List.filter is_image_file names)
    = (before ++ p :: after)%list
    /\ Forall (readable w) before
    /\ fs_read w p = None
    /\ forall n,
         0 < n ->
         (exists e, pc (run w n (init w)) = Failed e)
         /\ requests (run w n (init w)) = []
         /\ messages (run w n (init w)) = []
         /\ files (run w n (init w)) = w_files w
         /\ (w_stdin w <> [] ->
             pc (run w n (init w)) = Failed (OSError p)
             /\ opened (run w n (init w)) = (before ++ [p])%list).
Proof.
  intros Hex Hls Hfile Hrec Hread.
  assert (Hfound : discovered w
                   = Some (map (OsPath.join "images") (List.filter is_image_file names))).
  { unfold discovered. now rewrite Hex, Hls. }
  destruct (readable_split w (map (OsPath.join "images") (List.filter is_image_file names)))
    as [Hall | (before & p & after & Hsplit & Hbefore & Hp)].
  - exfalso.
    apply (Forall_readable_In w _ (OsPath.join "images" file) Hall); [| exact Hread].
    apply in_map. apply filter_In. split; [exact Hfile |].
    now apply is_image_file_iff.
  - exists before, p, after. repeat split; try assumption.
    all: destruct n as [|n]; [lia |]; cbn [run].
    all: destruct (w_stdin w) as [|initial_review rest] eqn:Hin.
    all: try (rewrite step_assemble_eof by (reflexivity || exact Hin)).
    all: try (rewrite Hsplit in Hfound;
              rewrite (step_assemble_unreadable w (init w) initial_review rest before p after)
                by (reflexivity || assumption)).
    all: rewrite run_final by reflexivity.
    all: try reflexivity.
    all: try (eexists; reflexivity).
    all: intros; contradiction.
Qed.

Lemma C7_unreadable_image_aborts_witness :
  exists before p after,
    map (OsPath.join "images") (List.filter is_image_file ["a.png"; "b.gif"; "c.webp"])
    = (before ++ p :: after)%list
    /\ Forall (readable broken_world) before
    /\ fs_read broken_world p = None
    /\ forall n,
         0 < n ->
         (exists e, pc (run broken_world n (init broken_world)) = Failed e)
         /\ requests (run broken_world n (init broken_world)) = []
         /\ messages (run broken_world n (init broken_world)) = []
         /\ files (run broken_world n (init broken_world)) = w_files broken_world
         /\ (w_stdin broken_world <> [] ->
             pc (run broken_world n (init broken_world)) = Failed (OSError p)
             /\ opened (run broken_world n (init broken_world)) = (before ++ [p])%list).
Proof.
  apply (C7_unreadable_image_aborts broken_world ["a.png"; "b.gif"; "c.webp"] "b.gif").
  - reflexivity.
  - reflexivity.
  - right. left. reflexivity.
  - exists "b", ".gif". split; [reflexivity |]. cbn. auto.
  - reflexivity.
Defined.

Example broken_run :
  pc (create_amazon_review broken_world) = Failed (OSError "images/b.gif")
  /\ opened (create_amazon_review broken_world) = ["images/a.png"; "images/b.gif"]
  /\ requests (create_amazon_review broken_world) = [].
Proof. vm_compute. repeat split. Qed.

(** ** The replies of the remote model *)

(** C8, as the specification has it, fails for a reply whose first block
    is not text while a later one is: the reply has a first text segment,
    and the run stops with an error without appending anything. *)
Lemma C8_first_text_segment_counterexample :
  pc (run late_text_world 1 (init late_text_world)) = AwaitingModelReply
  /\ remote late_text_world
       (List.length (requests (run late_text_world 1 (init late_text_world))))
       (request_for (messages (run late_text_world 1 (init late_text_world))))
     = Reply [OtherBlock; TextBlock "late text"]
  /\ Spec.first_text_segment [OtherBlock; TextBlock "late text"] = Some "late text"
  /\ messages (step late_text_world (run late_text_world 1 (init late_text_world)))
     <> (messages (run late_text_world 1 (init late_text_world))
         ++ [ {| role := "assistant"; content := Str "late text" |} ])%list
  /\ messages (step late_text_world (run late_text_world 1 (init late_text_world)))
     = messages (run late_text_world 1 (init late_text_world))
  /\ pc (step late_text_world (run late_text_world 1 (init late_text_world)))
     = Failed AttributeError.
Proof. vm_compute. repeat split. discriminate. Qed.

(** C8, amended: the utterance is the text of the first content block of
    the reply.  When that block is a text block, its text is also the first
    text segment of the reply, the message appended to the conversation is
    the assistant message with exactly that string as content, and the
    console has not been read yet: the next move is the console read.  When
    the reply has no block, or its first block is not text, the run stops
    with an error, whatever the later blocks hold, and nothing is appended
    or read. *)
Theorem C8_first_block_text_appended (w : World) (c : Config) (blocks : list Block) :
  pc c = AwaitingModelReply ->
  remote w (List.length (requests c)) (request_for (messages c)) = Reply blocks ->
  (forall text,
     hd_error blocks = Some (TextBlock text) ->
     Spec.first_text_segment blocks = Some text
     /\ messages (step w c)
        = (messages c ++ [ {| role := "assistant"; content := Str text |} ])%list
     /\ stdin (step w c) = stdin c
     /\ pc (step w c) = AwaitingUserInput)
  /\ ((forall text, hd_error blocks <> Some (TextBlock text)) ->
      (exists e, pc (step w c) = Failed e)
      /\ messages (step w c) = messages c
      /\ stdin (step w c) = stdin c).
Proof.
  intros Hpc Hremote.
  rewrite (step_await_model_reply w c Hpc). cbv zeta. rewrite Hremote.
  destruct blocks as [|[text|] more]; split.
  - intros text [=].
  - intros _. split; [eexists |]; split; reflexivity.
  - intros text' [= <-]. repeat split.
  - intros Hhd. now destruct (Hhd text).
  - intros text [=].
  - intros _. split; [eexists |]; split; reflexivity.
Qed.

Lemma C8_first_block_text_appended_witness :
  Spec.first_text_segment [TextBlock "How long have you used it?"]
  = Some "How long have you used it?"
  /\ messages (step blender_world (run blender_world 1 (init blender_world)))
     = (messages (run blender_world 1 (init blender_world))
        ++ [ {| role := "assistant"; content := Str "How long have you used it?" |} ])%list
  /\ stdin (step blender_world (run blender_world 1 (init blender_world)))
     = stdin (run blender_world 1 (init blender_world))
  /\ pc (step blender_world (run blender_world 1 (init blender_world)))
     = AwaitingUserInput.
Proof.
  destruct (C8_first_block_text_appended blender_world
              (run blender_world 1 (init blender_world))
              [TextBlock "How long have you used it?"])
    as [Htext _]; [reflexivity | reflexivity |].
  apply Htext. reflexivity.
Defined.

(** ** The directive *)

Lemma requests_logged_Forall (c : Config) (P : Request -> Prop) :
  requests_logged c ->
  (forall k, k < List.length (requests c) ->
     P (request_for (firstn (1 + 2 * k) (messages c)))) ->
  Forall P (requests c).
Proof.
  intros Hlog HP. rewrite Hlog. apply Forall_forall. intros r Hr.
  apply list_elem_of_In, in_map_iff in Hr as (k & <- & Hk).
  apply in_seq in Hk. apply HP. lia.
Qed.

Lemma assembled_messages (w : World) :
  messages (step w (init w)) = []
  \/ exists initial_review image_files,
       messages (step w (init w)) = [first_message w initial_review image_files].
Proof.
  destruct (step_assemble w (init w) eq_refl);
    [left; reflexivity .. | right; eexists; eexists; reflexivity].
Qed.

Lemma origin_role (w : World) (m : Message) :
  origin w m -> role m = "user" \/ role m = "assistant".
Proof.
  intros [m' Hfirst | n req text rest Hr | line Hline]; cbn; auto.
  destruct (assembled_messages w) as [Hnone | (r & fs & Hsome)].
  - rewrite Hnone in Hfirst. discriminate Hfirst.
  - rewrite Hsome in Hfirst. injection Hfirst as <-. left. reflexivity.
Qed.

(** ** Alternation and growth *)

Lemma alternating_last (before : list Message) (m : Message) :
  Spec.alternating (before ++ [m]) ->
  role m = Spec.expected_role (List.length before).
Proof.
  unfold Spec.alternating. rewrite map_app, length_app. cbn [List.length map].
  rewrite Nat.add_1_r, seq_S, map_app. cbn [map Nat.add]. intros H.
  apply app_inj_tail in H. apply (proj2 H).
Qed.

Lemma alternating_firstn (j : nat) (msgs : list Message) :
  Spec.alternating msgs -> Spec.alternating (firstn j msgs).
Proof.
  unfold Spec.alternating. intros H.
  rewrite <- firstn_map, H, firstn_map, take_seq, length_firstn. reflexivity.
Qed.

Lemma split_last {A} (l : list A) (n : nat) :
  List.length l = S n ->
  exists before m, l = (before ++ [m])%list /\ List.length before = n.
Proof.
  intros Hlen. destruct (exists_last (l := l)) as (before & m & ->).
  - intros ->. discriminate Hlen.
  - exists before, m. split; [reflexivity |].
    rewrite length_app in Hlen. cbn in Hlen. lia.
Qed.

Lemma upper_expected_role (i : nat) :
  Py.upper (Spec.expected_role i) = expected_label i.
Proof. unfold Spec.expected_role, expected_label. now destruct (Nat.even i). Qed.

Lemma step_prefix (w : World) (c : Config) :
  reachable w c -> messages c `prefix_of` messages (step w c).
Proof.
  intros Hreach. destruct (pc c) eqn:Hpc.
  - pose proof (inv_progress w c (reachable_Inv w c Hreach)) as Hprog.
    unfold progress in Hprog. rewrite Hpc in Hprog. subst c. apply prefix_nil.
  - case_reply w c Hpc; cbn; solve [reflexivity | now apply prefix_app_r].
  - case_input w c Hpc; cbn; solve [reflexivity | now apply prefix_app_r].
  - rewrite step_final; [reflexivity | now rewrite Hpc].
  - rewrite step_final; [reflexivity | now rewrite Hpc].
Qed.

Lemma run_prefix (w : World) (n : nat) (c : Config) :
  reachable w c -> messages c `prefix_of` messages (run w n c).
Proof.
  revert c. induction n as [|n IH]; intros c Hreach; [reflexivity |].
  cbn [run]. etransitivity; [apply step_prefix; exact Hreach |].
  apply IH. now constructor.
Qed.

(** C5: the conversation only grows at its end: whatever a run does next,
    the conversation it has is a prefix of the one it will have; and at the
    two points of the loop its length is one, for the first message, plus
    the replies received plus the turns of the operator, so that after [N]
    turns and [N] replies it is [1 + 2 * N]. *)
Theorem C5_append_only_length (w : World) (c : Config) :
  reachable w c ->
  (forall n, messages c `prefix_of` messages (run w n c))
  /\ (pc c = AwaitingModelReply \/ pc c = AwaitingUserInput ->
      List.length (messages c) = 1 + model_replies c + user_turns w c
      /\ forall N,
           user_turns w c = N -> model_replies c = N ->
           pc c = AwaitingModelReply /\ List.length (messages c) = 1 + 2 * N).
Proof.
  intros Hreach. split.
  - intros n. now apply run_prefix.
  - pose proof (inv_progress w c (reachable_Inv w c Hreach)) as Hprog.
    unfold progress in Hprog. unfold user_turns, model_replies.
    intros [Hpc | Hpc]; rewrite Hpc in Hprog.
    + destruct Hprog as (Hlen & Hlines & _). split; [lia |].
      intros N HN HN'. split; [exact Hpc | lia].
    + destruct Hprog as (Hlen & Hlines & _ & Hsome). split; [lia |].
      intros N HN HN'. lia.
Qed.

Lemma C5_append_only_length_witness :
  List.length (messages (run blender_world 3 (init blender_world))) = 1 + 2 * 1.
Proof.
  destruct (C5_append_only_length blender_world (run blender_world 3 (init blender_world)))
    as [_ Hlen].
  - apply reachable_run. constructor.
  - destruct Hlen as [_ HN]; [left; reflexivity |].
    apply (HN 1); reflexivity.
Defined.

(** C10: in every configuration of a run the roles of the conversation are
    [user], [assistant], [user], ... from the first message on; every
    request went out with a history that ends with a user message; what the
    move at the remote call appends, if anything, is an assistant message;
    and when the run ends normally the conversation ends with an assistant
    message, so that the labels of the blocks of the transcript are [USER],
    [ASSISTANT], ... from [USER] to [ASSISTANT]. *)
Theorem C10_roles_alternate (w : World) (c : Config) :
  reachable w c ->
  map role (messages c) = map Spec.expected_role (seq 0 (List.length (messages c)))
  /\ Forall (fun r => exists before m,
                 req_messages r = (before ++ [m])%list /\ role m = "user")
       (requests c)
  /\ (pc c = AwaitingModelReply ->
      (exists before m, messages c = (before ++ [m])%list /\ role m = "user")
      /\ (messages (step w c) = messages c
          \/ exists text,
               messages (step w c)
               = (messages c ++ [ {| role := "assistant"; content := Str text |} ])%list))
  /\ (pc c = Terminated ->
      (exists before m, messages c = (before ++ [m])%list /\ role m = "assistant")
      /\ hd_error (map role (messages c)) = Some "user"
      /\ files c !! transcript_path
         = Some (Py.join (map Spec.transcript_block (messages c)))
      /\ map (fun m => Py.upper (role m)) (messages c)
         = map expected_label (seq 0 (List.length (messages c)))
      /\ Nat.even (List.length (messages c)) = true).
Proof.
  intros Hreach. pose proof (reachable_Inv w c Hreach) as HI.
  pose proof (inv_alternating w c HI) as Halt.
  pose proof (inv_progress w c HI) as Hprog. unfold progress in Hprog.
  split; [exact Halt | split; [| split]].
  - apply requests_logged_Forall; [apply (inv_requests w c HI) |].
    intros k Hk. cbn [req_messages request_for].
    assert (Hlen : List.length (firstn (1 + 2 * k) (messages c)) = S (2 * k)).
    { rewrite length_firstn. apply Nat.min_l.
      destruct (pc c); [rewrite Hprog in Hk; cbn in Hk | | | |]; lia. }
    destruct (split_last _ _ Hlen) as (before & m & Heq & Hbefore).
    exists before, m. split; [exact Heq |].
    pose proof (alternating_firstn (1 + 2 * k) _ Halt) as Hk'.
    rewrite Heq in Hk'. apply alternating_last in Hk'.
    rewrite Hk', Hbefore. unfold Spec.expected_role. now rewrite even_double.
  - intros Hpc. rewrite Hpc in Hprog. destruct Hprog as (Hlen & _). split.
    + destruct (split_last _ _ Hlen) as (before & m & Heq & Hbefore).
      exists before, m. split; [exact Heq |].
      rewrite Heq in Halt. apply alternating_last in Halt.
      rewrite Halt, Hbefore. unfold Spec.expected_role. now rewrite even_double.
    + case_reply w c Hpc; cbn; auto.
      right. exists text. reflexivity.
  - intros Hpc. rewrite Hpc in Hprog.
    destruct Hprog as (Hlen & Hlines & Hfiles & Hsome).
    assert (Hreqs : exists n, List.length (requests c) = S n).
    { exists (List.length (requests c) - 1). lia. }
    destruct Hreqs as [n Hn]. rewrite Hn in Hlen.
    replace (2 * S n) with (S (1 + 2 * n)) in Hlen by lia.
    split; [| split; [| split; [| split]]].
    + destruct (split_last _ _ Hlen) as (before & m & Heq & Hbefore).
      exists before, m. split; [exact Heq |].
      rewrite Heq in Halt. apply alternating_last in Halt.
      rewrite Halt, Hbefore. unfold Spec.expected_role. now rewrite even_succ_double.
    + rewrite Halt, Hlen. reflexivity.
    + rewrite Hfiles. apply lookup_insert_eq.
    + rewrite <- (map_map role Py.upper), Halt, map_map.
      apply map_ext. intros i. apply upper_expected_role.
    + rewrite Hlen. replace (S (1 + 2 * n)) with (2 * S n) by lia. apply even_double.
Qed.

Lemma C10_roles_alternate_witness :
  map role (messages (create_amazon_review blender_world))
  = map Spec.expected_role
      (seq 0 (List.length (messages (create_amazon_review blender_world)))).
Proof.
  apply (C10_roles_alternate blender_world (create_amazon_review blender_world)).
  apply create_amazon_review_reachable.
Defined.

(** ** The media type of a picture *)

Lemma rfind_from_app (c : ascii) (s t : string) (i last : Z) :
  Py.rfind_from c (s ++ t) i last
  = Py.rfind_from c t (i + Z.of_nat (String.length s)) (Py.rfind_from c s i last).
Proof.
  revert i last. induction s as [|a s IH]; intros i last.
  - rewrite str_app_nil_l. cbn. now rewrite Z.add_0_r.
  - rewrite str_app_cons. cbn [Py.rfind_from String.length]. rewrite IH.
    f_equal. lia.
Qed.

Lemma rfind_from_free (c : ascii) (s : string) (i last : Z) :
  Py.free_of c s = true -> Py.rfind_from c s i last = last.
Proof.
  revert i last. induction s as [|a s IH]; intros i last Hfree; [reflexivity |].
  cbn [Py.free_of] in Hfree. apply andb_true_iff in Hfree as [Ha Hs].
  cbn [Py.rfind_from]. apply negb_true_iff in Ha. rewrite Ha. now apply IH.
Qed.

Lemma free_of_app (c : ascii) (s t : string) :
  Py.free_of c (s ++ t) = Py.free_of c s && Py.free_of c t.
Proof.
  induction s as [|a s IH]; [reflexivity |].
  rewrite str_app_cons. cbn [Py.free_of]. now rewrite IH, andb_assoc.
Qed.

(** The scan of [splitext] over a stem that starts at [len(pre)]. *)
Lemma has_stem_spec (pre stem t : string) :
  OsPath.has_stem (pre ++ stem ++ t) (String.length pre) (String.length stem)
  = negb (Py.all_of "." stem).
Proof.
  revert pre. induction stem as [|a stem IH]; intros pre; [reflexivity |].
  cbn [String.length OsPath.has_stem Py.all_of].
  rewrite slice_from_app, str_app_cons. cbn [Py.slice_to].
  change (String a EmptyString =? ".")%string with (Ascii.eqb a "." && true).
  rewrite andb_true_r.
  destruct (Ascii.eqb a ".") eqn:Ha; [| reflexivity].
  cbn [negb andb].
  replace (pre ++ String a (stem ++ t)) with ((pre ++ String a EmptyString) ++ stem ++ t)
    by now rewrite str_app_assoc.
  replace (S (String.length pre)) with (String.length (pre ++ String a EmptyString))
    by (rewrite str_length_app; cbn; lia).
  apply IH.
Qed.

Lemma join_images (file : string) :
  Py.startswith file "/" = false -> OsPath.join "images" file = "images/" ++ file.
Proof. unfold OsPath.join. now intros ->. Qed.

Lemma startswith_free (c : ascii) (s : string) :
  Py.free_of c s = true -> Py.startswith s (String c EmptyString) = false.
Proof.
  destruct s as [|a s]; [reflexivity |]. cbn [Py.free_of Py.startswith].
  intros H. apply andb_true_iff in H as [Ha _]. apply negb_true_iff in Ha.
  rewrite Ascii.eqb_sym, Ha. reflexivity.
Qed.

(** What [os.path.splitext] makes of the path of a file of [images] whose
    name is a stem, a dot and letters: the extension is found when the stem
    holds something else than dots, and is empty otherwise. *)
Lemma splitext_images (stem e : string) :
  Py.free_of "/" stem = true ->
  Py.free_of "/" e = true ->
  Py.free_of "." e = true ->
  snd (OsPath.splitext ("images/" ++ stem ++ String "." e))
  = if Py.all_of "." stem then EmptyString else String "." e.
Proof.
  intros Hstem He Hdot. unfold OsPath.splitext, Py.rfind.
  assert (Hsep : Py.rfind_from "/" ("images/" ++ stem ++ String "." e) 0 (-1) = 6%Z).
  { rewrite rfind_from_app. apply rfind_from_free.
    rewrite free_of_app, Hstem. cbn [Py.free_of]. now rewrite He. }
  assert (Hlast : Py.rfind_from "." ("images/" ++ stem ++ String "." e) 0 (-1)
                  = (7 + Z.of_nat (String.length stem))%Z).
  { rewrite <- str_app_assoc, rfind_from_app, str_length_app.
    cbn [Py.rfind_from]. rewrite Ascii.eqb_refl.
    rewrite rfind_from_free by exact Hdot. cbn [String.length]. lia. }
  rewrite Hsep, Hlast.
  destruct (Z.ltb_spec 6 (7 + Z.of_nat (String.length stem))) as [_ | Hge]; [| lia].
  change (Z.to_nat (6 + 1)) with (String.length "images/").
  replace (Z.to_nat (7 + Z.of_nat (String.length stem)) - String.length "images/")
    with (String.length stem) by (cbn [String.length]; lia).
  rewrite has_stem_spec.
  destruct (Py.all_of "." stem); [reflexivity |]. cbn [negb snd].
  replace (Z.to_nat (7 + Z.of_nat (String.length stem)))
    with (String.length ("images/" ++ stem))
    by (rewrite str_length_app; cbn [String.length]; lia).
  rewrite <- str_app_assoc. apply slice_from_app.
Qed.

(** The label of a picture whose name is a stem, a dot and letters. *)
Lemma media_type_of_images (stem e : string) :
  Py.free_of "/" stem = true ->
  Py.free_of "/" e = true ->
  Py.free_of "." e = true ->
  media_type_of (OsPath.join "images" (stem ++ String "." e))
  = if Py.all_of "." stem then "image/" else "image/" ++ e.
Proof.
  intros Hstem He Hdot. unfold media_type_of.
  rewrite join_images.
  - rewrite splitext_images by assumption.
    destruct (Py.all_of "." stem); reflexivity.
  - apply (startswith_free "/"). rewrite free_of_app, Hstem.
    cbn [Py.free_of]. now rewrite He.
Qed.

Lemma ascii_lower_dot (a : ascii) :
  Ascii.eqb (Py.ascii_lower a) "." = Ascii.eqb a ".".
Proof. destruct a as [[] [] [] [] [] [] [] []]; reflexivity. Qed.

Lemma ascii_lower_slash (a : ascii) :
  Ascii.eqb (Py.ascii_lower a) "/" = Ascii.eqb a "/".
Proof. destruct a as [[] [] [] [] [] [] [] []]; reflexivity. Qed.

Lemma free_of_lower_dot (s : string) :
  Py.free_of "." (Py.lower s) = Py.free_of "." s.
Proof.
  induction s as [|a s IH]; [reflexivity |].
  cbn [Py.lower Py.str_map Py.free_of]. fold (Py.lower s).
  now rewrite ascii_lower_dot, IH.
Qed.

Lemma free_of_lower_slash (s : string) :
  Py.free_of "/" (Py.lower s) = Py.free_of "/" s.
Proof.
  induction s as [|a s IH]; [reflexivity |].
  cbn [Py.lower Py.str_map Py.free_of]. fold (Py.lower s).
  now rewrite ascii_lower_slash, IH.
Qed.

(** An extension that is recognised is a dot followed by characters that
    are neither dots nor slashes. *)
Lemma recognised_extension_shape (ext : string) :
  In (Py.lower ext) image_extensions ->
  exists e,
    ext = String "." e /\ Py.free_of "." e = true /\ Py.free_of "/" e = true.
Proof.
  intros Hin. destruct ext as [|a e].
  - cbn in Hin. repeat (destruct Hin as [Hin | Hin]; [discriminate Hin |]).
    destruct Hin.
  - exists e.
    assert (Hshape : Ascii.eqb (Py.ascii_lower a) "." = true
                     /\ Py.free_of "." (Py.lower e) = true
                     /\ Py.free_of "/" (Py.lower e) = true).
    { cbn [Py.lower Py.str_map] in Hin. fold (Py.lower e) in Hin.
      unfold image_extensions in Hin. cbn [In] in Hin.
      repeat (destruct Hin as [Hin | Hin];
              [injection Hin as <- <-; repeat split; reflexivity |]).
      destruct Hin. }
    destruct Hshape as (Ha & Hdot & Hslash).
    rewrite ascii_lower_dot in Ha. apply Ascii.eqb_eq in Ha. subst a.
    rewrite free_of_lower_dot in Hdot. rewrite free_of_lower_slash in Hslash.
    repeat split; assumption.
Qed.

Lemma extension_as_found_spec (stem e : string) :
  Py.free_of "." e = true ->
  Spec.extension_as_found (stem ++ String "." e) = e.
Proof.
  intros Hdot. unfold Spec.extension_as_found, Py.rfind.
  rewrite rfind_from_app. cbn [Py.rfind_from]. rewrite Ascii.eqb_refl.
  rewrite rfind_from_free by exact Hdot.
  replace (Z.to_nat (0 + Z.of_nat (String.length stem) + 1))
    with (String.length (stem ++ String "." EmptyString))
    by (rewrite str_length_app; cbn [String.length]; lia).
  replace (stem ++ String "." e) with ((stem ++ String "." EmptyString) ++ e)
    by now rewrite str_app_assoc.
  apply slice_from_app.
Qed.

(** The label of a recognised file of [images]: [image/] and the extension
    as found, unless the name is made of dots up to its extension, in which
    case the label is [image/] alone. *)
Lemma media_type_recognised (file : string) :
  Spec.recognised file ->
  Py.free_of "/" file = true ->
  exists stem,
    file = stem ++ String "." (Spec.extension_as_found file)
    /\ media_type_of (OsPath.join "images" file)
       = if Py.all_of "." stem then "image/"
         else "image/" ++ Spec.extension_as_found file.
Proof.
  intros (stem & ext & -> & Hext) Hfile.
  destruct (recognised_extension_shape ext Hext) as (e & -> & Hdot & Hslash).
  rewrite free_of_app in Hfile. apply andb_true_iff in Hfile as [Hstem _].
  exists stem. rewrite extension_as_found_spec by exact Hdot.
  split; [reflexivity |]. now apply media_type_of_images.
Qed.

(** The first message holds one image part per recognised file, in the
    order of the listing, each with the base64 text of the bytes of its
    file. *)
Lemma image_parts_per_file (w : World) (initial_review : string)
    (rest names : list string) :
  w_stdin w = initial_review :: rest ->
  fs_exists w "images" = true ->
  fs_listdir w "images" = Some names ->
  Forall (readable w) (map (OsPath.join "images") (List.filter is_image_file names)) ->
  exists text,
    messages (step w (init w))
    = [ {| role := "user";
           content :=
             Parts
               (TextPart text
                :: map (fun file =>
                          ImagePart
                            (media_type_of (OsPath.join "images" file))
                            (Base64.b64encode
                               (default [] (fs_read w (OsPath.join "images" file)))))
                     (List.filter is_image_file names)) |} ]
    /\ List.length
         (map (image_part w)
            (map (OsPath.join "images") (List.filter is_image_file names)))
       = List.length (List.filter is_image_file names).
Proof.
  intros Hin Hex Hls Hread.
  rewrite (step_assemble_ok w (init w) initial_review rest
             (map (OsPath.join "images") (List.filter is_image_file names)));
    [| reflexivity | exact Hin | unfold discovered; now rewrite Hex, Hls | exact Hread].
  eexists. split.
  - cbn [messages]. unfold first_message. rewrite map_map. reflexivity.
  - now rewrite !length_map.
Qed.

(** C4, at the failing input: the folder holds the hidden file [.jpg], two
    pictures and a text file.  The first message has three image parts, one
    per recognised file, each with the base64 text of its file; the two
    pictures are labelled with their extension as found, but the part made
    from [.jpg], a recognised name whose extension as found is [jpg], is
    labelled [image/], not [image/jpg]. *)
Theorem C4_hidden_file_label :
  List.filter is_image_file [".jpg"; "front.PNG"; "notes.txt"; "side.view.jpeg"]
  = [".jpg"; "front.PNG"; "side.view.jpeg"]
  /\ messages (step gallery_world (init gallery_world))
     = [ {| role := "user";
            content :=
              Parts
                [ TextPart
                    ("Here is my initial product review:" ++ Py.nl ++ Py.nl
                     ++ "Nice lamp" ++ Py.nl ++ Py.nl
                     ++ "I'm also sharing some images of the product for your analysis:"
                     ++ Py.nl);
                  ImagePart "image/" "TWFu";
                  ImagePart "image/PNG" "TWFu";
                  ImagePart "image/jpeg" "TWFu" ] |} ]
  /\ Spec.recognised ".jpg"
  /\ Spec.extension_as_found ".jpg" = "jpg"
  /\ media_type_of (OsPath.join "images" ".jpg") = "image/"
  /\ media_type_of (OsPath.join "images" ".jpg")
     <> "image/" ++ Spec.extension_as_found ".jpg".
Proof.
  split; [reflexivity | split; [reflexivity | split; [| split; [| split]]]].
  - exists EmptyString, ".jpg". split; [reflexivity |]. cbn. auto.
  - reflexivity.
  - reflexivity.
  - vm_compute. discriminate.
Qed.

(** ** Checks of the primitives against Python *)

Example lower_mixed : Py.lower "ExIt [Z]@`{" = "exit [z]@`{".
Proof. reflexivity. Qed.

Example upper_roles : map Py.upper ["user"; "assistant"] = ["USER"; "ASSISTANT"].
Proof. reflexivity. Qed.

Example endswith_samples :
  map (fun s => Py.endswith s ".jpg") ["a.jpg"; ".jpg"; "jpg"; "a.jpg.txt"; EmptyString]
  = [true; true; false; false; false].
Proof. reflexivity. Qed.

Example is_image_file_samples :
  map is_image_file ["A.JPG"; "b.Jpeg"; "c.png"; "d.gif"; "e.WebP"; "f.bmp"; "png"; ".gif"]
  = [true; true; true; true; true; false; false; true].
Proof. reflexivity. Qed.

Example splitext_samples :
  map OsPath.splitext
    ["images/a.b.JPG"; "images/.jpg"; "images/..png"; "images/.a.gif"; "a.b/c"; "x"]
  = [ ("images/a.b", ".JPG"); ("images/.jpg", EmptyString); ("images/..png", EmptyString);
      ("images/.a", ".gif"); ("a.b/c", EmptyString); ("x", EmptyString) ].
Proof. reflexivity. Qed.

Example join_samples :
  [OsPath.join "images" "a.jpg"; OsPath.join "images/" "a.jpg"; OsPath.join "images" "/a"]
  = ["images/a.jpg"; "images/a.jpg"; "/a"].
Proof. reflexivity. Qed.

Example b64encode_samples :
  map (fun s => Base64.b64encode (list_byte_of_string s))
    [EmptyString; "f"; "fo"; "foo"; "foob"; "fooba"; "foobar"]
  = [EmptyString; "Zg=="; "Zm8="; "Zm9v"; "Zm9vYg=="; "Zm9vYmE="; "Zm9vYmFy"].
Proof. reflexivity. Qed.

Example b64encode_high_bytes :
  Base64.b64encode [xff; xfe; xfd; x00; x80] = "//79AIA=".
Proof. reflexivity. Qed.

Example system_prompt_length : String.length system_prompt = 868.
Proof. reflexivity. Qed.

(** ** The story of a run *)

Lemma conversation_snoc (first : Message) (exchanges : list (string * string))
    (reply line : string) :
  conversation first (exchanges ++ [(reply, line)])
  = (conversation first exchanges
     ++ [assistant_message reply; user_message line])%list.
Proof.
  unfold conversation. rewrite flat_map_app. cbn [flat_map fst snd].
  rewrite app_nil_r. reflexivity.
Qed.

Lemma story_step (w : World) (c : Config) : story w c -> story w (step w c).
Proof.
  intros [Hpc -> | e Hpc
          | review image_files exchanges Hpc Hfound Hread Hgo Hin Hmsgs
          | review image_files exchanges reply Hpc Hfound Hread Hgo Hin Hmsgs
          | review image_files exchanges reply sentinel Hpc Hfound Hread Hgo Hs Hin Hmsgs].
  - destruct (step_assemble w (init w) eq_refl)
      as [Hin | r rest Hin Hfound | r rest before p after Hin Hfound Hbefore Hp
          | r rest image_files Hin Hfound Hread];
      cbn [stdin init] in Hin.
    + now apply (story_failed w _ EOFError).
    + now apply (story_failed w _ (OSError "images")).
    + now apply (story_failed w _ (OSError p)).
    + apply (story_request w _ r image_files []);
        [reflexivity | exact Hfound | exact Hread | constructor | exact Hin | reflexivity].
  - rewrite step_final; [| now rewrite Hpc]. now apply (story_failed w c e).
  - case_reply w c Hpc.
    + now apply (story_failed w _ RemoteError).
    + now apply (story_failed w _ IndexError).
    + apply (story_console w _ review image_files exchanges text);
        [reflexivity | exact Hfound | exact Hread | exact Hgo | exact Hin |].
      cbn [messages]. now rewrite Hmsgs.
    + now apply (story_failed w _ AttributeError).
  - case_input w c Hpc.
    + now apply (story_failed w _ EOFError).
    + apply (story_saved w _ review image_files exchanges reply line);
        [reflexivity | exact Hfound | exact Hread | exact Hgo
         | now apply String.eqb_eq | exact Hin | exact Hmsgs].
    + now apply (story_failed w _ e).
    + now apply (story_failed w _ (OSError transcript_path)).
    + apply (story_request w _ review image_files (exchanges ++ [(reply, line)]));
        [reflexivity | exact Hfound | exact Hread | | |].
      * rewrite map_app. apply Forall_app. split; [exact Hgo |].
        constructor; [| constructor]. now apply String.eqb_neq.
      * cbn [stdin]. rewrite Hin, map_app, <- app_assoc. reflexivity.
      * cbn [messages]. rewrite Hmsgs, conversation_snoc, <- app_assoc. reflexivity.
  - rewrite step_final; [| now rewrite Hpc].
    now apply (story_saved w c review image_files exchanges reply sentinel).
Qed.

Lemma reachable_story (w : World) (c : Config) : reachable w c -> story w c.
Proof.
  induction 1 as [|c _ IH]; [now apply story_assembling | now apply story_step].
Qed.

Lemma keeps_going_iff (line : string) :
  keeps_going line <-> ~ In line Spec.sentinel_spellings.
Proof. unfold keeps_going. now rewrite lower_exit_iff. Qed.

(** X11: a run that ended normally has read the console up to the first
    line that spells [exit] and no further: the console was the review, then
    lines none of which spells [exit], then the sentinel, then exactly the
    lines that are still unread. *)
Theorem X11_read_up_to_first_sentinel (w : World) (c : Config) :
  reachable w c ->
  pc c = Terminated ->
  exists review turns sentinel,
    w_stdin w = review :: (turns ++ sentinel :: stdin c)%list
    /\ In sentinel Spec.sentinel_spellings
    /\ Forall (fun line => ~ In line Spec.sentinel_spellings) turns.
Proof.
  intros Hreach Hpc.
  destruct (reachable_story w c Hreach)
    as [Hpc' _ | e Hpc' | ? ? ? Hpc' | ? ? ? ? Hpc'
        | review image_files exchanges reply sentinel _ _ _ Hgo Hs Hin _];
    try congruence.
  exists review, (map snd exchanges), sentinel.
  split; [exact Hin | split; [now apply lower_exit_iff |]].
  eapply Forall_impl; [exact Hgo |]. intros line. apply keeps_going_iff.
Qed.

Lemma X11_read_up_to_first_sentinel_witness :
  exists review turns sentinel,
    w_stdin blender_world
    = review :: (turns ++ sentinel :: stdin (create_amazon_review blender_world))%list
    /\ In sentinel Spec.sentinel_spellings
    /\ Forall (fun line => ~ In line Spec.sentinel_spellings) turns.
Proof.
  apply (X11_read_up_to_first_sentinel blender_world (create_amazon_review blender_world)).
  - apply create_amazon_review_reachable.
  - reflexivity.
Defined.

(** X12: at the points of the loop and at the normal end, the conversation
    is the first message followed, for each turn, by the text of the reply
    as an assistant message and by the line of the operator, as typed, as a
    user message, the lines being those of the console after the review, in
    order; before the console read and at the end, one more reply stands
    last. *)
Theorem X12_conversation_of_replies_and_lines (w : World) (c : Config) :
  reachable w c ->
  pc c = AwaitingModelReply \/ pc c = AwaitingUserInput \/ pc c = Terminated ->
  exists review image_files exchanges rest tail,
    w_stdin w = review :: (map snd exchanges ++ rest)%list
    /\ discovered w = Some image_files
    /\ messages c
       = (first_message w review image_files
          :: flat_map
               (fun x => [ {| role := "assistant"; content := Str (fst x) |};
                           {| role := "user"; content := Str (snd x) |} ])
               exchanges
          ++ tail)%list
    /\ (pc c = AwaitingModelReply -> tail = [] /\ rest = stdin c)
    /\ (pc c <> AwaitingModelReply ->
        exists reply, tail = [ {| role := "assistant"; content := Str reply |} ]).
Proof.
  intros Hreach Hpc.
  destruct (reachable_story w c Hreach)
    as [Hpc' _ | e Hpc'
        | review image_files exchanges Hpc' Hfound _ _ Hin Hmsgs
        | review image_files exchanges reply Hpc' Hfound _ _ Hin Hmsgs
        | review image_files exchanges reply sentinel Hpc' Hfound _ _ _ Hin Hmsgs].
  - destruct Hpc as [H | [H | H]]; congruence.
  - destruct Hpc as [H | [H | H]]; congruence.
  - exists review, image_files, exchanges, (stdin c), [].
    rewrite app_nil_r.
    split; [exact Hin | split; [exact Hfound | split; [exact Hmsgs | split]]].
    + intros _. split; reflexivity.
    + intros H. congruence.
  - exists review, image_files, exchanges, (stdin c), [assistant_message reply].
    split; [exact Hin | split; [exact Hfound | split; [exact Hmsgs | split]]].
    + intros H. congruence.
    + intros _. exists reply. reflexivity.
  - exists review, image_files, exchanges, (sentinel :: stdin c),
      [assistant_message reply].
    split; [exact Hin | split; [exact Hfound | split; [exact Hmsgs | split]]].
    + intros H. congruence.
    + intros _. exists reply. reflexivity.
Qed.

Lemma X12_conversation_of_replies_and_lines_witness :
  exists review image_files exchanges rest tail,
    w_stdin blender_world = review :: (map snd exchanges ++ rest)%list
    /\ discovered blender_world = Some image_files
    /\ messages (create_amazon_review blender_world)
       = (first_message blender_world review image_files
          :: flat_map
               (fun x => [ {| role := "assistant"; content := Str (fst x) |};
                           {| role := "user"; content := Str (snd x) |} ])
               exchanges
          ++ tail)%list
    /\ (pc (create_amazon_review blender_world) = AwaitingModelReply ->
        tail = [] /\ rest = stdin (create_amazon_review blender_world))
    /\ (pc (create_amazon_review blender_world) <> AwaitingModelReply ->
        exists reply, tail = [ {| role := "assistant"; content := Str reply |} ]).
Proof.
  apply (X12_conversation_of_replies_and_lines blender_world
           (create_amazon_review blender_world)).
  - apply create_amazon_review_reachable.
  - right. right. reflexivity.
Defined.

(** X19: when no line of the console after the review spells [exit], the
    run never ends normally: whatever it reaches, the files are those it
    found, and it ends in an error. *)
Theorem X19_no_sentinel_no_transcript (w : World) :
  (forall line, In line (tl (w_stdin w)) -> ~ In line Spec.sentinel_spellings) ->
  (forall c, reachable w c -> pc c <> Terminated /\ files c = w_files w)
  /\ exists e, pc (create_amazon_review w) = Failed e.
Proof.
  intros Hnone.
  assert (Hnever : forall c, reachable w c -> pc c <> Terminated).
  { intros c Hreach Hpc.
    destruct (reachable_story w c Hreach)
      as [Hpc' _ | e Hpc' | ? ? ? Hpc' | ? ? ? ? Hpc'
          | review image_files exchanges reply sentinel _ _ _ _ Hs Hin _];
      try congruence.
    apply (Hnone sentinel); [| now apply lower_exit_iff].
    rewrite Hin. cbn [tl]. apply in_or_app. right. now left. }
  split.
  - intros c Hreach. split; [now apply Hnever |].
    pose proof (inv_progress w c (reachable_Inv w c Hreach)) as Hprog.
    unfold progress in Hprog. pose proof (Hnever c Hreach) as Hpc.
    destruct (pc c) as [| | | |e];
      [now subst c | apply Hprog .. | congruence |].
    destruct Hprog as (_ & [Hfiles | (remains & _ & _ & _ & sentinel & Hs & Hexit)]);
      [exact Hfiles |].
    destruct (Hnone sentinel Hs). now apply lower_exit_iff.
  - pose proof (create_amazon_review_ends w) as Hend.
    pose proof (Hnever _ (create_amazon_review_reachable w)) as Hpc.
    destruct (pc (create_amazon_review w)) as [| | | |e];
      try discriminate Hend; [congruence | now exists e].
Qed.

Lemma X19_no_sentinel_no_transcript_witness :
  exists e, pc (create_amazon_review talkative_world) = Failed e.
Proof.
  apply (X19_no_sentinel_no_transcript talkative_world).
  intros line Hline Hs. cbn in Hline.
  destruct Hline as [<- | [<- | []]]; cbn in Hs;
    repeat (destruct Hs as [Hs | Hs]; [discriminate Hs |]); exact Hs.
Defined.

Example talkative_run :
  pc (create_amazon_review talkative_world) = Failed EOFError
  /\ List.length (messages (create_amazon_review talkative_world)) = 6
  /\ files (create_amazon_review talkative_world) !! transcript_path = Some "kept".
Proof. vm_compute. repeat split. Qed.

(** ** Where the conversation comes from *)

Lemma image_parts_have_no_text (w : World) (image_files : list string) :
  List.filter Spec.is_text_part (map (image_part w) image_files) = [].
Proof. induction image_files as [|p l IH]; [reflexivity | exact IH]. Qed.

Lemma first_message_text (w : World) (review : string) (image_files : list string) :
  Spec.message_text (content (first_message w review image_files))
  = match image_files with
    | [] => Spec.review_text review
    | _ :: _ => Spec.review_text review ++ images_sentence
    end.
Proof.
  unfold first_message, Spec.message_text. cbn [content List.filter Spec.is_text_part].
  rewrite image_parts_have_no_text. cbn [map Py.join fold_right Spec.part_text].
  apply str_app_nil_r.
Qed.

Lemma sourced_same (w : World) (c c' : Config) :
  sourced w c ->
  messages c' = messages c ->
  pc c' <> AwaitingModelReply ->
  (pc c' = AwaitingUserInput \/ pc c' = Terminated ->
   pc c = AwaitingUserInput \/ pc c = Terminated) ->
  sourced w c'.
Proof.
  intros [Hnone | (review & rest & image_files & exchanges & tail
                   & Hin & Hfound & Hremote & Hlines & Hmsgs & _ & Htail)]
    Hsame Hpc Hpc'.
  - left. now rewrite Hsame.
  - right. exists review, rest, image_files, exchanges, tail.
    repeat split; try assumption.
    + now rewrite Hsame.
    + intros H. contradiction.
    + intros H. apply Htail, Hpc', H.
Qed.

Lemma sourced_step (w : World) (c : Config) :
  Inv w c -> sourced w c -> sourced w (step w c).
Proof.
  intros [Hprog _ _ _ _ [consumed Hcons]] Hsrc.
  unfold progress in Hprog. destruct (pc c) eqn:Hpc.
  - subst c.
    destruct (step_assemble w (init w) eq_refl)
      as [Hin | r rest Hin Hfound | r rest before p after Hin Hfound Hbefore Hp
          | r rest image_files Hin Hfound Hread];
      cbn [stdin init] in Hin; [left; reflexivity .. |].
    right. exists r, rest, image_files, [], [].
    repeat split; try assumption; try constructor.
    intros [H | H]; discriminate H.
  - destruct Hprog as (Hlen & _).
    case_reply w c Hpc;
      [apply (sourced_same w c); cbn;
         [exact Hsrc | reflexivity | discriminate | intros [H | H]; discriminate H] ..
      | | apply (sourced_same w c); cbn;
         [exact Hsrc | reflexivity | discriminate | intros [H | H]; discriminate H]].
    destruct Hsrc as [Hnone | (review & rest & image_files & exchanges & tail
                              & Hin & Hfound & Hfrom & Hlines & Hmsgs & Hnil & _)].
    { rewrite Hnone in Hlen. cbn in Hlen. lia. }
    rewrite (Hnil Hpc) in *. right.
    exists review, rest, image_files, exchanges, [text].
    repeat split; try assumption.
    + rewrite app_nil_r in Hfrom. apply Forall_app. split; [exact Hfrom |].
      constructor; [| constructor]. now exists (List.length (requests c)),
        (request_for (messages c)), more.
    + cbn [messages map]. rewrite Hmsgs. cbn [map]. now rewrite app_nil_r.
    + cbn. discriminate.
    + intros _. now exists text.
  - destruct Hprog as (Hlen & Hlines & _ & Hsome).
    case_input w c Hpc;
      [apply (sourced_same w c); cbn;
         [exact Hsrc | reflexivity | discriminate | intros _; now left] .. |].
    destruct Hsrc as [Hnone | (review & rest' & image_files & exchanges & tail
                              & Hin & Hfound & Hfrom & Hsaid & Hmsgs & _ & Hone)].
    { rewrite Hnone in Hlen. cbn in Hlen. lia. }
    destruct Hone as [reply ->]; [now left |]. right.
    exists review, rest', image_files, (exchanges ++ [(reply, line)])%list, [].
    repeat split; try assumption.
    + now rewrite map_app, app_nil_r.
    + rewrite map_app. apply Forall_app. split; [exact Hsaid |].
      constructor; [| constructor]. cbn [snd].
      destruct consumed as [|first consumed].
      * rewrite Hcons, length_app in Hlines. cbn in Hlines. lia.
      * rewrite Hcons in Hin. cbn [app] in Hin. injection Hin as _ <-.
        apply in_or_app. right. now left.
    + cbn [messages map]. rewrite Hmsgs, conversation_snoc, app_nil_r.
      cbn [map]. now rewrite <- app_assoc.
    + cbn. intros [H | H]; discriminate H.
  - rewrite step_final; [exact Hsrc | now rewrite Hpc].
  - rewrite step_final; [exact Hsrc | now rewrite Hpc].
Qed.

Lemma reachable_sourced (w : World) (c : Config) : reachable w c -> sourced w c.
Proof.
  induction 1 as [|c Hreach IH]; [now left |].
  apply sourced_step; [now apply reachable_Inv | exact IH].
Qed.

Lemma join_app (l l' : list string) : Py.join (l ++ l') = Py.join l ++ Py.join l'.
Proof.
  induction l as [|x l IH]; cbn [app Py.join fold_right];
    [now rewrite str_app_nil_l |].
  unfold Py.join in IH. now rewrite IH, str_app_assoc.
Qed.

Lemma transcript_app (l l' : list Message) :
  Spec.transcript (l ++ l') = Spec.transcript l ++ Spec.transcript l'.
Proof. unfold Spec.transcript. now rewrite map_app, join_app. Qed.

(** The blocks of the exchanges, two by two. *)
Lemma transcript_exchanges (exchanges : list (string * string)) :
  Spec.transcript
    (flat_map (fun x => [assistant_message (fst x); user_message (snd x)]) exchanges)
  = Py.join
      (map (fun x => "ASSISTANT: " ++ fst x ++ Py.nl ++ Py.nl
                     ++ "USER: " ++ snd x ++ Py.nl ++ Py.nl) exchanges).
Proof.
  induction exchanges as [|[reply line] exchanges IH]; [reflexivity |].
  cbn [flat_map map]. rewrite (transcript_app [_; _]), IH.
  cbn [Py.join fold_right fst snd]. f_equal.
  unfold Spec.transcript, Spec.transcript_block.
  cbn [map Py.join fold_right role content assistant_message user_message
       Spec.message_text].
  change (Py.upper "user") with "USER". change (Py.upper "assistant") with "ASSISTANT".
  rewrite str_app_nil_r, !str_app_assoc. reflexivity.
Qed.

(** The first message as the assembler writes it down. *)
Lemma first_message_spelled (w : World) (review : string) (image_files : list string) :
  first_message w review image_files
  = {| role := "user";
       content :=
         Parts
           (TextPart
              (("Here is my initial product review:" ++ Py.nl ++ Py.nl
                ++ review ++ Py.nl ++ Py.nl)
               ++ match image_files with
                  | [] => EmptyString
                  | _ :: _ =>
                      "I'm also sharing some images of the product for your analysis:"
                      ++ Py.nl
                  end)
            :: map (fun path =>
                      ImagePart (media_type_of path)
                        (Base64.b64encode (default [] (fs_read w path))))
                 image_files) |}.
Proof.
  unfold first_message. destruct image_files; [| reflexivity].
  fold (Spec.review_text review). now rewrite str_app_nil_r.
Qed.

(** The text of the first message starts with the words of the assembler:
    it is not the directive, whatever the review. *)
Lemma first_message_not_directive (w : World) (review : string)
    (image_files : list string) :
  Spec.message_text (content (first_message w review image_files)) <> system_prompt.
Proof.
  rewrite first_message_text. intros H.
  apply (f_equal (fun s => match s with String a _ => a | EmptyString => " "%char end))
    in H.
  destruct image_files; discriminate H.
Qed.

(** C9: every request of a run carries the same directive, the constant
    [system_prompt], with the same model name and output bound, whatever the
    conversation holds.  The conversation never takes it in: wherever the
    run stands, the conversation is empty, or it is the first message, whose
    text is the words of the assembler around the review, then the texts of
    the remote model and the lines of the console, turn by turn; a message
    whose text is the directive can only be a reply of the remote model or a
    line of the console that is the directive character by character.  And
    the transcript of a run that ended normally is made of those texts and of
    the role labels alone. *)
Theorem C9_directive_constant (w : World) (c : Config) :
  reachable w c ->
  Forall (fun r => req_system r = system_prompt
                   /\ r = request_for (req_messages r)) (requests c)
  /\ Forall (fun m => role m = "user" \/ role m = "assistant") (messages c)
  /\ Forall (fun m =>
               Spec.message_text (content m) = system_prompt ->
               (exists n req more,
                  remote w n req = Reply (TextBlock system_prompt :: more))
               \/ In system_prompt (tl (w_stdin w)))
       (messages c)
  /\ (messages c = []
      \/ exists review rest image_files exchanges tail,
           w_stdin w = review :: rest
           /\ discovered w = Some image_files
           /\ Forall (fun text =>
                        exists n req more,
                          remote w n req = Reply (TextBlock text :: more))
                (map fst exchanges ++ tail)
           /\ Forall (fun line => In line rest) (map snd exchanges)
           /\ messages c
              = ({| role := "user";
                    content :=
                      Parts
                        (TextPart
                           (("Here is my initial product review:" ++ Py.nl ++ Py.nl
                             ++ review ++ Py.nl ++ Py.nl)
                            ++ match image_files with
                               | [] => EmptyString
                               | _ :: _ =>
                                   "I'm also sharing some images of the product for your analysis:"
                                   ++ Py.nl
                               end)
                         :: map (fun path =>
                                   ImagePart (media_type_of path)
                                     (Base64.b64encode (default [] (fs_read w path))))
                              image_files) |}
                 :: flat_map
                      (fun x => [ {| role := "assistant"; content := Str (fst x) |};
                                  {| role := "user"; content := Str (snd x) |} ])
                      exchanges
                 ++ map (fun text => {| role := "assistant"; content := Str text |})
                      tail)%list
           /\ (pc c = Terminated ->
               exists reply,
                 tail = [reply]
                 /\ files c !! "amazon_review_conversation.txt"
                    = Some
                        ("USER: "
                         ++ (("Here is my initial product review:" ++ Py.nl ++ Py.nl
                              ++ review ++ Py.nl ++ Py.nl)
                             ++ match image_files with
                                | [] => EmptyString
                                | _ :: _ =>
                                    "I'm also sharing some images of the product for your analysis:"
                                    ++ Py.nl
                                end)
                         ++ Py.nl ++ Py.nl
                         ++ Py.join
                              (map (fun x =>
                                      "ASSISTANT: " ++ fst x ++ Py.nl ++ Py.nl
                                      ++ "USER: " ++ snd x ++ Py.nl ++ Py.nl)
                                 exchanges)
                         ++ "ASSISTANT: " ++ reply ++ Py.nl ++ Py.nl))).
Proof.
  intros Hreach. pose proof (reachable_Inv w c Hreach) as HI.
  pose proof (reachable_sourced w c Hreach) as Hsrc.
  split; [| split; [| split]].
  - apply requests_logged_Forall; [apply (inv_requests w c HI) |].
    intros k _. split; reflexivity.
  - eapply Forall_impl; [apply (inv_origin w c HI) |].
    intros m. apply origin_role.
  - destruct Hsrc as [Hnone | (review & rest & image_files & exchanges & tail
                              & Hin & Hfound & Hfrom & Hsaid & Hmsgs & _ & _)];
      [rewrite Hnone; constructor |].
    rewrite Hmsgs. unfold conversation. apply Forall_forall. intros m Hm.
    apply list_elem_of_In in Hm.
    destruct Hm as [<- | Hm];
      [intros H; now destruct (first_message_not_directive w review image_files) |].
    rewrite Forall_app in Hfrom. destruct Hfrom as [Hreplies Htail].
    apply in_app_or in Hm as [Hm | Hm].
    + apply in_flat_map in Hm as ([reply line] & Hx & Hm).
      cbn [fst snd] in Hm. destruct Hm as [<- | [<- | []]]; cbn; intros ->.
      * left. rewrite Forall_forall in Hreplies.
        apply (Hreplies system_prompt). apply list_elem_of_In.
        apply in_map_iff. now exists (system_prompt, line).
      * right. rewrite Hin. cbn [tl]. rewrite Forall_forall in Hsaid.
        apply (Hsaid system_prompt). apply list_elem_of_In.
        apply in_map_iff. now exists (reply, system_prompt).
    + apply in_map_iff in Hm as (text & <- & Hm). cbn. intros ->.
      left. rewrite Forall_forall in Htail. apply (Htail system_prompt).
      now apply list_elem_of_In.
  - destruct Hsrc as [Hnone | (review & rest & image_files & exchanges & tail
                              & Hin & Hfound & Hfrom & Hsaid & Hmsgs & _ & Hone)];
      [now left | right].
    exists review, rest, image_files, exchanges, tail.
    rewrite <- first_message_spelled.
    split; [exact Hin |]. split; [exact Hfound |]. split; [exact Hfrom |].
    split; [exact Hsaid |]. split; [exact Hmsgs |].
    intros Hpc. destruct Hone as [reply ->]; [now right |].
    exists reply. split; [reflexivity |].
    pose proof (inv_progress w c HI) as Hprog.
    unfold progress in Hprog. rewrite Hpc in Hprog.
    destruct Hprog as (_ & _ & Hfiles & _). rewrite Hfiles.
    change "amazon_review_conversation.txt" with transcript_path.
    rewrite lookup_insert_eq. f_equal. rewrite Hmsgs.
    unfold conversation. rewrite transcript_app.
    change (first_message w review image_files :: ?l)
      with ([first_message w review image_files] ++ l)%list.
    rewrite (transcript_app [_]), transcript_exchanges.
    unfold Spec.transcript at 1 2, Spec.transcript_block.
    cbn [map Py.join fold_right]. rewrite first_message_text.
    cbn [role first_message assistant_message content Spec.message_text].
    change (Py.upper "user") with "USER". change (Py.upper "assistant") with "ASSISTANT".
    rewrite !str_app_nil_r. unfold Spec.review_text, images_sentence.
    destruct image_files; [rewrite str_app_nil_r |]; rewrite !str_app_assoc;
      reflexivity.
Qed.

Lemma C9_directive_constant_witness :
  Forall (fun r => req_system r = system_prompt
                   /\ r = request_for (req_messages r))
    (requests (create_amazon_review blender_world))
  /\ Forall (fun m => role m = "user" \/ role m = "assistant")
       (messages (create_amazon_review blender_world)).
Proof.
  destruct (C9_directive_constant blender_world (create_amazon_review blender_world)
              (create_amazon_review_reachable blender_world))
    as (Hreq & Hroles & _).
  split; [exact Hreq | exact Hroles].
Defined.

(** The transcript of the blender run, block by block. *)
Example blender_transcript_blocks :
  files (create_amazon_review blender_world) !! "amazon_review_conversation.txt"
  = Some
      ("USER: Here is my initial product review:" ++ Py.nl ++ Py.nl
       ++ "Great blender, but lid leaks" ++ Py.nl ++ Py.nl ++ Py.nl ++ Py.nl
       ++ "ASSISTANT: How long have you used it?" ++ Py.nl ++ Py.nl
       ++ "USER: About a month" ++ Py.nl ++ Py.nl
       ++ "ASSISTANT: Here is a draft." ++ Py.nl ++ Py.nl).
Proof. vm_compute. reflexivity. Qed.

(** ** Bounds on the logs *)

Lemma run_add (w : World) (n m : nat) (c : Config) :
  run w (n + m) c = run w m (run w n c).
Proof.
  revert c. induction n as [|n IH]; intros c; [reflexivity |].
  cbn [Nat.add run]. apply IH.
Qed.

Lemma within_bounds_init (w : World) : within_bounds w (init w).
Proof. split; [apply prefix_nil | cbn; lia]. Qed.

Lemma within_bounds_step (w : World) (c : Config) :
  reachable w c -> within_bounds w c -> within_bounds w (step w c).
Proof.
  intros Hreach (Hopened & Hreqs & Hmsgs).
  pose proof (inv_progress w c (reachable_Inv w c Hreach)) as Hprog.
  unfold progress in Hprog. destruct (pc c) eqn:Hpc.
  - subst c.
    destruct (step_assemble w (init w) eq_refl)
      as [Hin | r rest Hin Hfound | r rest before p after Hin Hfound Hbefore Hp
          | r rest image_files Hin Hfound Hread];
      cbn [stdin init] in Hin; split; cbn; try (rewrite Hin; cbn; lia).
    + apply prefix_nil.
    + apply prefix_nil.
    + rewrite Hfound. cbn. exists after. now rewrite <- app_assoc.
    + rewrite Hfound. reflexivity.
  - destruct Hprog as (Hlen & Hlines & _).
    case_reply w c Hpc; split; cbn; try exact Hopened;
      rewrite ?length_app; cbn; lia.
  - destruct Hprog as (Hlen & Hlines & _).
    case_input w c Hpc; split; cbn; try exact Hopened;
      rewrite ?Hstdin, ?length_app; cbn [List.length] in *; lia.
  - rewrite step_final; [now split | now rewrite Hpc].
  - rewrite step_final; [now split | now rewrite Hpc].
Qed.

Lemma reachable_within_bounds (w : World) (c : Config) :
  reachable w c -> within_bounds w c.
Proof.
  induction 1 as [|c Hc IH]; [apply within_bounds_init | now apply within_bounds_step].
Qed.

Lemma discovered_In (w : World) (paths : list string) (p : string) :
  discovered w = Some paths ->
  In p paths ->
  exists names file,
    fs_listdir w "images" = Some names
    /\ In file names /\ Spec.recognised file /\ p = OsPath.join "images" file.
Proof.
  unfold discovered. intros Hfound Hp.
  destruct (fs_exists w "images"); [| injection Hfound as <-; destruct Hp].
  destruct (fs_listdir w "images") as [names|]; [| discriminate Hfound].
  injection Hfound as <-. apply in_map_iff in Hp as (file & <- & Hfile).
  apply filter_In in Hfile as [Hfile Hrec].
  exists names, file. split; [reflexivity | split; [exact Hfile | split]];
    [now apply is_image_file_iff | reflexivity].
Qed.

(** X18: the only files a run ever opens for reading are files of the
    [images] folder with a recognised extension: at every moment the files
    opened so far are the first of the pictures found, in the order of the
    listing, and nothing else. *)
Theorem X18_only_pictures_are_opened (w : World) (c : Config) :
  reachable w c ->
  (exists later, default [] (discovered w) = (opened c ++ later)%list)
  /\ Forall
       (fun path =>
          exists names file,
            fs_listdir w "images" = Some names
            /\ In file names /\ Spec.recognised file
            /\ path = OsPath.join "images" file)
       (opened c).
Proof.
  intros Hreach. destruct (reachable_within_bounds w c Hreach) as [[later Hlater] _].
  split; [now exists later |].
  apply Forall_forall. intros path Hpath. apply list_elem_of_In in Hpath.
  destruct (discovered w) as [paths|] eqn:Hfound; cbn in Hlater.
  - apply (discovered_In w paths path Hfound).
    rewrite Hlater. apply in_or_app. now left.
  - destruct (opened c); [destruct Hpath | discriminate Hlater].
Qed.

Lemma X18_only_pictures_are_opened_witness :
  (exists later,
     default [] (discovered broken_world)
     = (opened (create_amazon_review broken_world) ++ later)%list)
  /\ Forall
       (fun path =>
          exists names file,
            fs_listdir broken_world "images" = Some names
            /\ In file names /\ Spec.recognised file
            /\ path = OsPath.join "images" file)
       (opened (create_amazon_review broken_world)).
Proof.
  apply (X18_only_pictures_are_opened broken_world (create_amazon_review broken_world)).
  apply create_amazon_review_reachable.
Defined.

(** X15: a run makes at most one request per line it has read from the
    console, so never more requests than the console has lines; and it is
    over after twice as many moves as the console has lines, plus one: more
    moves change nothing. *)
Theorem X15_one_request_per_line_at_most (w : World) :
  (forall c,
     reachable w c ->
     List.length (requests c) + List.length (stdin c) <= List.length (w_stdin w))
  /\ is_final (pc (run w (2 * List.length (w_stdin w) + 1) (init w))) = true
  /\ forall n,
       2 * List.length (w_stdin w) + 1 <= n ->
       run w n (init w) = run w (2 * List.length (w_stdin w) + 1) (init w).
Proof.
  split; [| split].
  - intros c Hreach. apply (reachable_within_bounds w c Hreach).
  - apply run_ends. reflexivity.
  - intros n Hn.
    replace n with (2 * List.length (w_stdin w) + 1 + (n - (2 * List.length (w_stdin w) + 1)))
      by lia.
    rewrite run_add. apply run_final. apply run_ends. reflexivity.
Qed.

(** X9: the files change only in the saving.  In every configuration of a
    run that is not the normal end, either the files are exactly those the
    run found, or the run failed while it was saving: a spelling of [exit]
    was typed, the transcript could be opened, which emptied it, and then
    the write of the block of one of the messages, or the closing, raised
    the error of the run; the transcript is left with what that failure
    left, and every other file is as it was. *)
Theorem X9_files_change_only_in_saving (w : World) (c : Config) :
  reachable w c ->
  pc c <> Terminated ->
  files c = w_files w
  \/ exists e remains,
       pc c = Failed e
       /\ fs_writable w "amazon_review_conversation.txt" = true
       /\ files c = <["amazon_review_conversation.txt" := remains]> (w_files w)
       /\ ((exists written m later,
               messages c = (written ++ m :: later)%list
               /\ fs_write_fails w "amazon_review_conversation.txt"
                    (Spec.transcript written) (Spec.transcript_block m)
                  = Some (e, remains))
           \/ fs_close_fails w "amazon_review_conversation.txt"
                (Spec.transcript (messages c)) = Some (e, remains))
       /\ exists sentinel,
            In sentinel (tl (w_stdin w)) /\ In sentinel Spec.sentinel_spellings.
Proof.
  intros Hreach Hpc.
  pose proof (inv_progress w c (reachable_Inv w c Hreach)) as Hprog.
  unfold progress in Hprog.
  destruct (pc c) as [| | | |e];
    [left; now subst c | left; apply Hprog .. | congruence |].
  destruct Hprog
    as (_ & [Hfiles | (remains & Hsave & Hfiles & Hw & sentinel & Hs & Hexit)]);
    [now left | right].
  exists e, remains. split; [reflexivity |]. split; [exact Hw |].
  split; [exact Hfiles |]. split; [now apply save_outcome_failed |].
  exists sentinel. split; [exact Hs | now apply lower_exit_iff].
Qed.

Lemma X9_files_change_only_in_saving_witness :
  files (create_amazon_review garbled_world) = w_files garbled_world
  \/ exists e remains,
       pc (create_amazon_review garbled_world) = Failed e
       /\ fs_writable garbled_world "amazon_review_conversation.txt" = true
       /\ files (create_amazon_review garbled_world)
          = <["amazon_review_conversation.txt" := remains]> (w_files garbled_world)
       /\ ((exists written m later,
               messages (create_amazon_review garbled_world)
               = (written ++ m :: later)%list
               /\ fs_write_fails garbled_world "amazon_review_conversation.txt"
                    (Spec.transcript written) (Spec.transcript_block m)
                  = Some (e, remains))
           \/ fs_close_fails garbled_world "amazon_review_conversation.txt"
                (Spec.transcript (messages (create_amazon_review garbled_world)))
              = Some (e, remains))
       /\ exists sentinel,
            In sentinel (tl (w_stdin garbled_world))
            /\ In sentinel Spec.sentinel_spellings.
Proof.
  apply (X9_files_change_only_in_saving garbled_world
           (create_amazon_review garbled_world)).
  - apply create_amazon_review_reachable.
  - vm_compute. discriminate.
Defined.

(** The run of [garbled_world]: the review is written, the write of the
    reply fails, and the transcript of the earlier run is gone. *)
Example garbled_run :
  pc (create_amazon_review garbled_world) = Failed UnicodeEncodeError
  /\ files (create_amazon_review garbled_world) !! transcript_path
     = Some ("USER: Here is my initial product review:" ++ Py.nl ++ Py.nl
             ++ "Nice lamp" ++ Py.nl ++ Py.nl ++ Py.nl ++ Py.nl)
  /\ files (create_amazon_review garbled_world) !! "notes.txt" = Some "mine".
Proof. vm_compute. repeat split. Qed.

(** ** Requests and replies *)

Lemma alternating_nth (msgs : list Message) (i : nat) (m : Message) :
  Spec.alternating msgs ->
  nth_error msgs i = Some m ->
  role m = Spec.expected_role i.
Proof.
  unfold Spec.alternating. intros Halt Hm.
  assert (Hi : i < List.length msgs) by (apply nth_error_Some; congruence).
  assert (H : nth_error (map role msgs) i
              = nth_error (map Spec.expected_role (seq 0 (List.length msgs))) i)
    by now rewrite Halt.
  rewrite !nth_error_map, Hm, nth_error_seq in H.
  destruct (Nat.ltb_spec i (List.length msgs)) as [_ | Hge]; [| lia].
  cbn in H. now injection H.
Qed.

Lemma firstn_snoc_nth {A} (l : list A) (n : nat) (x : A) :
  nth_error l n = Some x -> firstn (S n) l = (firstn n l ++ [x])%list.
Proof.
  revert n. induction l as [|a l IH]; intros [|n] H; try discriminate H.
  - cbn in H. injection H as ->. reflexivity.
  - cbn [firstn app]. f_equal. now apply IH.
Qed.

Lemma logged_request (c : Config) (k : nat) (r : Request) :
  requests_logged c ->
  nth_error (requests c) k = Some r ->
  k < List.length (requests c)
  /\ r = request_for (firstn (1 + 2 * k) (messages c)).
Proof.
  intros Hlog Hr.
  assert (Hk : k < List.length (requests c)) by (apply nth_error_Some; congruence).
  split; [exact Hk |].
  rewrite Hlog, nth_error_map, nth_error_seq in Hr.
  destruct (Nat.ltb_spec k (List.length (requests c))) as [_ | Hge]; [| lia].
  cbn in Hr. now injection Hr.
Qed.

Lemma logged_history_bound (w : World) (c : Config) (k : nat) :
  reachable w c ->
  k < List.length (requests c) ->
  1 + 2 * k <= List.length (messages c).
Proof.
  intros Hreach Hk.
  pose proof (inv_progress w c (reachable_Inv w c Hreach)) as Hprog.
  unfold progress in Hprog.
  destruct (pc c); [rewrite Hprog in Hk; cbn in Hk | | | |]; lia.
Qed.

(** X13: every request carries the whole conversation as it stood: the
    request number [k] of a run was sent with the first [1 + 2 * k] messages
    of the conversation, and the request after it with the same history, the
    text the remote model gave to request [k] as an assistant message, and
    one user message. *)
Theorem X13_requests_carry_whole_history (w : World) (c : Config) (k : nat)
    (r : Request) :
  reachable w c ->
  nth_error (requests c) k = Some r ->
  req_messages r = firstn (1 + 2 * k) (messages c)
  /\ List.length (req_messages r) = 1 + 2 * k
  /\ forall r',
       nth_error (requests c) (S k) = Some r' ->
       exists text more m,
         remote w k r = Reply (TextBlock text :: more)
         /\ role m = "user"
         /\ req_messages r'
            = (req_messages r
               ++ [ {| role := "assistant"; content := Str text |}; m ])%list.
Proof.
  intros Hreach Hr. pose proof (reachable_Inv w c Hreach) as HI.
  destruct (logged_request c k r (inv_requests w c HI) Hr) as [Hk ->].
  cbn [req_messages request_for].
  split; [reflexivity | split].
  - rewrite length_firstn. apply Nat.min_l.
    now apply (logged_history_bound w).
  - intros r' Hr'.
    destruct (logged_request c (S k) r' (inv_requests w c HI) Hr') as [Hk' ->].
    pose proof (logged_history_bound w c (S k) Hreach Hk') as Hlen.
    destruct (inv_replies w c HI k) as (text & more & Hremote & Hreply); [lia |].
    destruct (nth_error (messages c) (2 + 2 * k)) as [m|] eqn:Hm;
      [| apply nth_error_None in Hm; lia].
    exists text, more, m. split; [exact Hremote | split].
    + rewrite (alternating_nth _ _ _ (inv_alternating w c HI) Hm).
      unfold Spec.expected_role.
      replace (2 + 2 * k) with (2 * S k) by lia. now rewrite even_double.
    + cbn [req_messages request_for].
      replace (1 + 2 * S k) with (S (S (1 + 2 * k))) by lia.
      rewrite (firstn_snoc_nth _ _ m) by exact Hm.
      rewrite (firstn_snoc_nth _ _ (assistant_message text)) by exact Hreply.
      rewrite <- app_assoc. reflexivity.
Qed.

Lemma X13_requests_carry_whole_history_witness :
  req_messages (request_for (firstn 1 (messages (create_amazon_review blender_world))))
  = firstn (1 + 2 * 0) (messages (create_amazon_review blender_world)).
Proof.
  apply (X13_requests_carry_whole_history blender_world
           (create_amazon_review blender_world) 0).
  - apply create_amazon_review_reachable.
  - reflexivity.
Defined.

(** X14: the assistant messages of a conversation are the replies of the
    remote model and nothing else: the message at position [1 + 2 * k] is
    the assistant message that holds the text of the first block of what the
    remote model answered to the request number [k] of the log, which
    carried the messages before that position. *)
Theorem X14_replies_are_kept (w : World) (c : Config) (k : nat) (m : Message) :
  reachable w c ->
  nth_error (messages c) (1 + 2 * k) = Some m ->
  exists text more,
    m = {| role := "assistant"; content := Str text |}
    /\ nth_error (requests c) k
       = Some (request_for (firstn (1 + 2 * k) (messages c)))
    /\ remote w k (request_for (firstn (1 + 2 * k) (messages c)))
       = Reply (TextBlock text :: more).
Proof.
  intros Hreach Hm. pose proof (reachable_Inv w c Hreach) as HI.
  assert (Hlen : 1 + 2 * k < List.length (messages c))
    by (apply nth_error_Some; congruence).
  destruct (inv_replies w c HI k Hlen) as (text & more & Hremote & Hreply).
  exists text, more.
  split; [rewrite Hm in Hreply; now injection Hreply | split; [| exact Hremote]].
  destruct (reachable_within_bounds w c Hreach) as (_ & _ & Hbound).
  rewrite (inv_requests w c HI), nth_error_map, nth_error_seq.
  destruct (Nat.ltb_spec k (List.length (requests c))) as [_ | Hge]; [| lia].
  reflexivity.
Qed.

Lemma X14_replies_are_kept_witness :
  exists text more,
    {| role := "assistant"; content := Str "Here is a draft." |}
    = {| role := "assistant"; content := Str text |}
    /\ nth_error (requests (create_amazon_review blender_world)) 1
       = Some (request_for
                 (firstn (1 + 2 * 1) (messages (create_amazon_review blender_world))))
    /\ remote blender_world 1
         (request_for
            (firstn (1 + 2 * 1) (messages (create_amazon_review blender_world))))
       = Reply (TextBlock text :: more).
Proof.
  apply (X14_replies_are_kept blender_world (create_amazon_review blender_world) 1).
  - apply create_amazon_review_reachable.
  - reflexivity.
Defined.

(** X8: a request that fails, a reply without content and a reply whose
    first block is not text each stop the run, with [RemoteError],
    [IndexError] and [AttributeError]: the request stays in the log, the
    conversation, the console and the files are as before, nothing is
    printed, and no further move retries or saves anything. *)
Theorem X8_bad_reply_stops_the_run (w : World) (c : Config) :
  pc c = AwaitingModelReply ->
  (forall text more,
     remote w (List.length (requests c)) (request_for (messages c))
     <> Reply (TextBlock text :: more)) ->
  pc (step w c)
  = Failed
      match remote w (List.length (requests c)) (request_for (messages c)) with
      | RemoteFailure => RemoteError
      | Reply [] => IndexError
      | Reply (_ :: _) => AttributeError
      end
  /\ requests (step w c) = (requests c ++ [request_for (messages c)])%list
  /\ messages (step w c) = messages c
  /\ stdin (step w c) = stdin c
  /\ stdout (step w c) = stdout c
  /\ files (step w c) = files c
  /\ forall n, run w n (step w c) = step w c.
Proof.
  intros Hpc Hbad.
  assert (Hstop : forall c', is_final (pc c') = true -> forall n, run w n c' = c')
    by (intros c' Hc' n; now apply run_final).
  rewrite (step_await_model_reply w c Hpc). cbv zeta.
  destruct (remote w _ _) as [|[|[text|] more]] eqn:Hremote.
  - repeat split. now apply Hstop.
  - repeat split. now apply Hstop.
  - exfalso. now apply (Hbad text more).
  - repeat split. now apply Hstop.
Qed.

Lemma X8_bad_reply_stops_the_run_witness :
  pc (run silent_world 2 (init silent_world)) = Failed RemoteError
  /\ messages (run silent_world 2 (init silent_world))
     = messages (run silent_world 1 (init silent_world)).
Proof.
  destruct (X8_bad_reply_stops_the_run silent_world (run silent_world 1 (init silent_world)))
    as (Hpc & _ & Hmsgs & _).
  - reflexivity.
  - intros text more. vm_compute. discriminate.
  - split; [exact Hpc | exact Hmsgs].
Defined.

(** X10: when the sentinel is typed and the transcript cannot be opened for
    writing, the run stops with the error of that file: the sentinel is
    consumed, the conversation is kept in memory but no file is changed, and
    the notice that the conversation was saved is not printed. *)
Theorem X10_unwritable_transcript (w : World) (c : Config) (line : string)
    (rest : list string) :
  pc c = AwaitingUserInput ->
  stdin c = line :: rest ->
  In line Spec.sentinel_spellings ->
  fs_writable w "amazon_review_conversation.txt" = false ->
  pc (step w c) = Failed (OSError "amazon_review_conversation.txt")
  /\ files (step w c) = files c
  /\ messages (step w c) = messages c
  /\ stdin (step w c) = rest
  /\ stdout (step w c) = (stdout c ++ ["> "])%list
  /\ requests (step w c) = requests c.
Proof.
  intros Hpc Hin Hline Hw. apply lower_exit_iff in Hline.
  rewrite (step_await_user_input w c Hpc). cbv zeta. rewrite Hin, Hline.
  change (fs_writable w transcript_path) with (fs_writable w "amazon_review_conversation.txt").
  rewrite Hw. repeat split.
Qed.

Lemma X10_unwritable_transcript_witness :
  pc (step readonly_world (run readonly_world 2 (init readonly_world)))
  = Failed (OSError "amazon_review_conversation.txt")
  /\ files (step readonly_world (run readonly_world 2 (init readonly_world)))
     = files (run readonly_world 2 (init readonly_world)).
Proof.
  destruct (X10_unwritable_transcript readonly_world
              (run readonly_world 2 (init readonly_world)) "EXIT" ["never read"])
    as (Hpc & Hfiles & _).
  - reflexivity.
  - reflexivity.
  - cbn. auto 20.
  - reflexivity.
  - split; [exact Hpc | exact Hfiles].
Defined.

(** ** The ways the assembling fails *)

(** X3: when the console has no line for the review, the run stops with
    [EOFError] right after its two banner lines and the prompt: the [images]
    folder is not even looked at, no file is opened, no request is made,
    nothing is written, and further moves change nothing. *)
Theorem X3_no_review_no_run (w : World) (n : nat) :
  w_stdin w = [] ->
  0 < n ->
  pc (run w n (init w)) = Failed EOFError
  /\ stdout (run w n (init w))
     = [ Py.nl ++ "=== AMAZON REVIEW FRAMEWORK ===" ++ Py.nl;
         Py.nl ++ "Please enter your initial product experience/review:" ++ Py.nl;
         "> " ]
  /\ opened (run w n (init w)) = []
  /\ requests (run w n (init w)) = []
  /\ messages (run w n (init w)) = []
  /\ files (run w n (init w)) = w_files w.
Proof.
  intros Hin Hn. destruct n as [|n]; [lia |]. cbn [run].
  rewrite step_assemble_eof by (reflexivity || exact Hin).
  rewrite run_final by reflexivity. repeat split.
Qed.

Lemma X3_no_review_no_run_witness :
  pc (run mute_world 1 (init mute_world)) = Failed EOFError
  /\ stdout (run mute_world 1 (init mute_world))
     = [ Py.nl ++ "=== AMAZON REVIEW FRAMEWORK ===" ++ Py.nl;
         Py.nl ++ "Please enter your initial product experience/review:" ++ Py.nl;
         "> " ]
  /\ opened (run mute_world 1 (init mute_world)) = []
  /\ requests (run mute_world 1 (init mute_world)) = []
  /\ messages (run mute_world 1 (init mute_world)) = []
  /\ files (run mute_world 1 (init mute_world)) = w_files mute_world.
Proof. apply (X3_no_review_no_run mute_world 1); [reflexivity | lia]. Defined.

(** X2: when [images] exists and cannot be listed (it is not a folder, or
    may not be read), the run stops with the error of [images] after the
    review was typed: the missing-folder case is the only one forgiven.  No
    file is opened, no request is made, no message is built, nothing is
    written. *)
Theorem X2_unlistable_folder_aborts (w : World) (review : string)
    (rest : list string) (n : nat) :
  w_stdin w = review :: rest ->
  fs_exists w "images" = true ->
  fs_listdir w "images" = None ->
  0 < n ->
  pc (run w n (init w)) = Failed (OSError "images")
  /\ stdin (run w n (init w)) = rest
  /\ opened (run w n (init w)) = []
  /\ requests (run w n (init w)) = []
  /\ messages (run w n (init w)) = []
  /\ files (run w n (init w)) = w_files w.
Proof.
  intros Hin Hex Hls Hn. destruct n as [|n]; [lia |]. cbn [run].
  rewrite (step_assemble_unlistable w (init w) review rest);
    [| reflexivity | exact Hin | unfold discovered; now rewrite Hex, Hls].
  rewrite run_final by reflexivity. repeat split.
Qed.

Lemma X2_unlistable_folder_aborts_witness :
  pc (create_amazon_review unlistable_world) = Failed (OSError "images")
  /\ stdin (create_amazon_review unlistable_world) = ["exit"]
  /\ opened (create_amazon_review unlistable_world) = []
  /\ requests (create_amazon_review unlistable_world) = []
  /\ messages (create_amazon_review unlistable_world) = []
  /\ files (create_amazon_review unlistable_world) = w_files unlistable_world.
Proof.
  apply (X2_unlistable_folder_aborts unlistable_world "Nice lamp" ["exit"] 5);
    [reflexivity | reflexivity | reflexivity | lia].
Defined.

(** ** What [get_image_files] selects *)

(** X1: [get_image_files] changes nothing and opens no file; it fails only
    when [images] exists and cannot be listed; otherwise it returns, in the
    order of the listing and with repetitions kept, the path
    [images/<name>] of each listed name that ends, whatever the case of its
    letters, in one of the five extensions, and of no other: nothing when
    the folder is absent. *)
Theorem X1_get_image_files_selects (w : World) (c : Config) :
  fst (get_image_files w c) = c
  /\ match snd (get_image_files w c) with
     | Raise e =>
         e = OSError "images"
         /\ fs_exists w "images" = true /\ fs_listdir w "images" = None
     | Return image_files =>
         (fs_exists w "images" = false -> image_files = [])
         /\ (forall names,
               fs_exists w "images" = true ->
               fs_listdir w "images" = Some names ->
               image_files
               = map (fun file => OsPath.join "images" file)
                   (List.filter is_image_file names)
               /\ List.length image_files <= List.length names
               /\ forall file,
                    In file (List.filter is_image_file names)
                    <-> In file names /\ Spec.recognised file)
     end.
Proof.
  rewrite get_image_files_spec. unfold discovered.
  destruct (fs_exists w "images") eqn:Hex.
  - destruct (fs_listdir w "images") as [names|] eqn:Hls; cbn [fst snd].
    + split; [reflexivity | split; [discriminate |]].
      intros names' _ Heq. injection Heq as <-.
      split; [reflexivity | split].
      * rewrite length_map. apply filter_length_le.
      * intros file. rewrite filter_In, is_image_file_iff. reflexivity.
    + repeat split.
  - cbn [fst snd]. split; [reflexivity | split; [reflexivity |]].
    intros names Habs. discriminate Habs.
Qed.

(** X5: the label of a picture keeps the extension as it is typed in the
    file name: for a name made of a stem without slash and of an extension
    that is recognised whatever its case, the label is [image/] followed by
    the extension without its dot, in the case of the file name, provided
    the stem holds something else than dots; when the stem is empty or made
    of dots only, the file is selected all the same and the label is
    [image/] alone. *)
Theorem X5_label_keeps_extension_as_typed (stem ext : string) :
  In (Py.lower ext) [".jpg"; ".jpeg"; ".png"; ".gif"; ".webp"] ->
  Py.free_of "/" stem = true ->
  is_image_file (stem ++ ext) = true
  /\ media_type_of (OsPath.join "images" (stem ++ ext))
     = if Py.all_of "." stem then "image/" else "image/" ++ Py.slice_from 1 ext.
Proof.
  intros Hext Hstem. split.
  - apply is_image_file_iff. exists stem, ext. split; [reflexivity | exact Hext].
  - destruct (recognised_extension_shape ext Hext) as (e & -> & Hdot & Hslash).
    now apply media_type_of_images.
Qed.

Lemma X5_label_keeps_extension_as_typed_witness :
  is_image_file ("front" ++ ".PNG") = true
  /\ media_type_of (OsPath.join "images" ("front" ++ ".PNG"))
     = if Py.all_of "." "front" then "image/" else "image/" ++ Py.slice_from 1 ".PNG".
Proof.
  apply (X5_label_keeps_extension_as_typed "front" ".PNG"); [| reflexivity].
  cbn. auto.
Defined.

(** ** The pictures of the first message *)

(** X4: when every recognised file of the listing can be read, the
    assembling opens exactly those files, once each and in the order of the
    listing, and the first message is a user message made of a text part
    followed by one image part per recognised file, in the same order, each
    holding the label of its path and the base64 text of the bytes of its
    file; the text is the review between its heading and blank lines,
    followed by the sentence that announces pictures when there is at least
    one. *)
Theorem X4_one_image_part_per_picture (w : World) (review : string)
    (rest names : list string) (bytes_of : string -> list byte) :
  w_stdin w = review :: rest ->
  fs_exists w "images" = true ->
  fs_listdir w "images" = Some names ->
  (forall file,
     In file names -> Spec.recognised file ->
     fs_read w (OsPath.join "images" file) = Some (bytes_of file)) ->
  pc (step w (init w)) = AwaitingModelReply
  /\ opened (step w (init w))
     = map (fun file => OsPath.join "images" file) (List.filter is_image_file names)
  /\ messages (step w (init w))
     = [ {| role := "user";
            content :=
              Parts
                (TextPart
                   (match List.filter is_image_file names with
                    | [] => Spec.review_text review
                    | _ :: _ =>
                        Spec.review_text review
                        ++ "I'm also sharing some images of the product for your analysis:"
                        ++ Py.nl
                    end)
                 :: map (fun file =>
                           ImagePart
                             (media_type_of (OsPath.join "images" file))
                             (Base64.b64encode (bytes_of file)))
                      (List.filter is_image_file names)) |} ]
  /\ forall file,
       In file (List.filter is_image_file names)
       <-> In file names /\ Spec.recognised file.
Proof.
  intros Hin Hex Hls Hbytes.
  assert (Hsel : forall file,
            In file (List.filter is_image_file names)
            <-> In file names /\ Spec.recognised file).
  { intros file. rewrite filter_In, is_image_file_iff. reflexivity. }
  assert (Hread : Forall (readable w)
                    (map (OsPath.join "images") (List.filter is_image_file names))).
  { apply Forall_forall. intros path Hpath.
    apply list_elem_of_In, in_map_iff in Hpath as (file & <- & Hfile).
    apply Hsel in Hfile as [Hfile Hrec]. unfold readable.
    now rewrite (Hbytes file Hfile Hrec). }
  rewrite (step_assemble_ok w (init w) review rest
             (map (OsPath.join "images") (List.filter is_image_file names)));
    [| reflexivity | exact Hin | unfold discovered; now rewrite Hex, Hls | exact Hread].
  split; [reflexivity | split; [reflexivity | split; [| exact Hsel]]].
  cbn [messages]. unfold first_message. rewrite map_map.
  assert (Hparts :
            map (fun file => image_part w (OsPath.join "images" file))
              (List.filter is_image_file names)
            = map (fun file =>
                     ImagePart (media_type_of (OsPath.join "images" file))
                       (Base64.b64encode (bytes_of file)))
                (List.filter is_image_file names)).
  { apply map_ext_in. intros file Hfile. apply Hsel in Hfile as [Hfile Hrec].
    unfold image_part. now rewrite (Hbytes file Hfile Hrec). }
  rewrite Hparts. destruct (List.filter is_image_file names); reflexivity.
Qed.

Lemma X4_one_image_part_per_picture_witness :
  opened (step gallery_world (init gallery_world))
  = map (fun file => OsPath.join "images" file)
      (List.filter is_image_file [".jpg"; "front.PNG"; "notes.txt"; "side.view.jpeg"]).
Proof.
  apply (X4_one_image_part_per_picture gallery_world "Nice lamp" ["exit"]
           [".jpg"; "front.PNG"; "notes.txt"; "side.view.jpeg"]
           (fun _ => list_byte_of_string "Man"));
    reflexivity.
Defined.

(** ** Runs that end normally *)

Lemma loop_reaches_end (w : World) (sentinel : string) (rest : list string) :
  Py.lower sentinel = "exit" ->
  (forall n req, exists text more, remote w n req = Reply (TextBlock text :: more)) ->
  fs_writable w transcript_path = true ->
  transcript_storable w ->
  forall (turns : list string) (c : Config),
    Forall keeps_going turns ->
    pc c = AwaitingModelReply ->
    stdin c = (turns ++ sentinel :: rest)%list ->
    pc (run w (2 * List.length turns + 2) c) = Terminated
    /\ stdin (run w (2 * List.length turns + 2) c) = rest
    /\ List.length (requests (run w (2 * List.length turns + 2) c))
       = List.length (requests c) + S (List.length turns)
    /\ List.length (messages (run w (2 * List.length turns + 2) c))
       = List.length (messages c) + 2 * List.length turns + 1.
Proof.
  intros Hs Hremote Hw Hstorable turns.
  induction turns as [|line turns IH]; intros c Hgo Hpc Hin.
  - cbn [List.length Nat.mul Nat.add run app] in *.
    rewrite (step_await_model_reply w c Hpc). cbv zeta.
    destruct (Hremote (List.length (requests c)) (request_for (messages c)))
      as (text & more & ->).
    rewrite step_await_user_input by reflexivity. cbv zeta.
    cbn [stdin stdout messages requests opened files].
    rewrite Hin, Hs, Hw, (save_outcome_storable _ _ Hstorable).
    cbn. rewrite !length_app. cbn. repeat split; lia.
  - replace (2 * List.length (line :: turns) + 2)
      with (S (S (2 * List.length turns + 2))) by (cbn [List.length]; lia).
    cbn [run]. apply Forall_cons_iff in Hgo as [Hline Hgo].  
    rewrite (step_await_model_reply w c Hpc). cbv zeta.
    destruct (Hremote (List.length (requests c)) (request_for (messages c)))
      as (text & more & ->).
    rewrite step_await_user_input by reflexivity. cbv zeta.
    cbn [stdin stdout messages requests opened files]. rewrite Hin. cbn [app].
    apply String.eqb_neq in Hline. rewrite Hline.
    match goal with |- context [run w _ ?c2] =>
      destruct (IH c2 Hgo eq_refl eq_refl) as (H1 & H2 & H3 & H4)
    end.
    rewrite H1, H2, H3, H4. cbn. rewrite !length_app. cbn. repeat split; lia.
Qed.

(** X16: a run ends normally whenever it can: if the console holds a review,
    then lines none of which spells [exit], then a line that does; if the
    pictures found can all be read; if the remote model answers every
    request with a reply that starts with a text block; and if the
    transcript can be opened for writing, every write to it goes through,
    and so does its closing; then the run ends normally, having made one
    request per line read after the review, with the lines after the
    sentinel unread. *)
Theorem X16_normal_end_is_reached (w : World) (review : string)
    (turns : list string) (sentinel : string) (rest image_files : list string) :
  w_stdin w = review :: (turns ++ sentinel :: rest)%list ->
  Forall (fun line => ~ In line Spec.sentinel_spellings) turns ->
  In sentinel Spec.sentinel_spellings ->
  discovered w = Some image_files ->
  Forall (readable w) image_files ->
  (forall n req, exists text more, remote w n req = Reply (TextBlock text :: more)) ->
  fs_writable w "amazon_review_conversation.txt" = true ->
  (forall so_far text,
     fs_write_fails w "amazon_review_conversation.txt" so_far text = None) ->
  (forall written,
     fs_close_fails w "amazon_review_conversation.txt" written = None) ->
  pc (create_amazon_review w) = Terminated
  /\ stdin (create_amazon_review w) = rest
  /\ List.length (requests (create_amazon_review w)) = S (List.length turns)
  /\ List.length (messages (create_amazon_review w)) = 2 * S (List.length turns)
  /\ create_amazon_review w = run w (2 * List.length turns + 3) (init w).
Proof.
  intros Hin Hturns Hs Hfound Hread Hremote Hw Hwrite Hclose.
  assert (Hstorable : transcript_storable w) by (split; assumption).
  apply lower_exit_iff in Hs.
  assert (Hgo : Forall keeps_going turns).
  { eapply Forall_impl; [exact Hturns |]. intros line. apply keeps_going_iff. }
  pose proof (step_assemble_ok w (init w) review (turns ++ sentinel :: rest)
                image_files eq_refl Hin Hfound Hread) as Hstep.
  assert (Hend : run w (2 * List.length turns + 3) (init w)
                 = run w (2 * List.length turns + 2) (step w (init w))).
  { replace (2 * List.length turns + 3) with (S (2 * List.length turns + 2)) by lia.
    reflexivity. }
  destruct (loop_reaches_end w sentinel rest Hs Hremote Hw Hstorable turns
              (step w (init w)) Hgo)
    as (H1 & H2 & H3 & H4); [now rewrite Hstep | now rewrite Hstep |].
  assert (Hall : create_amazon_review w = run w (2 * List.length turns + 3) (init w)).
  { unfold create_amazon_review. rewrite Hin. cbn [List.length].
    rewrite length_app. cbn [List.length].
    replace (2 * S (List.length turns + S (List.length rest)) + 1)
      with (2 * List.length turns + 3 + (2 * List.length rest + 2)) by lia.
    rewrite run_add. apply run_final. rewrite Hend, H1. reflexivity. }
  rewrite Hall, Hend, H1, H2, H3, H4, Hstep. cbn. repeat split; lia.
Qed.

Lemma X16_normal_end_is_reached_witness :
  pc (create_amazon_review blender_world) = Terminated
  /\ stdin (create_amazon_review blender_world) = []
  /\ List.length (requests (create_amazon_review blender_world)) = 2
  /\ List.length (messages (create_amazon_review blender_world)) = 2 * 2
  /\ create_amazon_review blender_world
     = run blender_world (2 * 1 + 3) (init blender_world).
Proof.
  apply (X16_normal_end_is_reached blender_world "Great blender, but lid leaks"
           ["About a month"] "Exit" [] []).
  - reflexivity.
  - constructor; [| constructor]. cbn. intros H.
    repeat (destruct H as [H | H]; [discriminate H |]). exact H.
  - cbn. auto 20.
  - reflexivity.
  - constructor.
  - intros [|n] req; eexists _, _; reflexivity.
  - reflexivity.
  - reflexivity.
  - reflexivity.
Defined.

(** X17: when the operator types the sentinel at the first prompt of the
    loop, and the transcript can be opened, written and closed, the run
    makes one request, with the first message alone, and the transcript
    holds exactly two blocks: [USER:] with the text of the first
    message, no picture data in it, and [ASSISTANT:] with the text of the
    reply. *)
Theorem X17_immediate_exit_two_blocks (w : World) (review sentinel : string)
    (rest image_files : list string) (text : string) (more : list Block) :
  w_stdin w = review :: sentinel :: rest ->
  In sentinel Spec.sentinel_spellings ->
  discovered w = Some image_files ->
  Forall (readable w) image_files ->
  remote w 0 (request_for [first_message w review image_files])
  = Reply (TextBlock text :: more) ->
  fs_writable w "amazon_review_conversation.txt" = true ->
  (forall so_far block,
     fs_write_fails w "amazon_review_conversation.txt" so_far block = None) ->
  (forall written,
     fs_close_fails w "amazon_review_conversation.txt" written = None) ->
  pc (create_amazon_review w) = Terminated
  /\ requests (create_amazon_review w)
     = [request_for [first_message w review image_files]]
  /\ messages (create_amazon_review w)
     = [ first_message w review image_files;
         {| role := "assistant"; content := Str text |} ]
  /\ files (create_amazon_review w) !! "amazon_review_conversation.txt"
     = Some
         ("USER: "
          ++ match image_files with
             | [] => Spec.review_text review
             | _ :: _ =>
                 Spec.review_text review
                 ++ "I'm also sharing some images of the product for your analysis:"
                 ++ Py.nl
             end
          ++ Py.nl ++ Py.nl ++ "ASSISTANT: " ++ text ++ Py.nl ++ Py.nl).
Proof.
  intros Hin Hs Hfound Hread Hremote Hw Hwrite Hclose. apply lower_exit_iff in Hs.
  assert (Hstorable : transcript_storable w) by (split; assumption).
  assert (Hrun : run w 3 (init w)
                 = {| pc := Terminated;
                      messages := [first_message w review image_files;
                                   assistant_message text];
                      stdin := rest;
                      stdout := stdout (run w 3 (init w));
                      requests := [request_for [first_message w review image_files]];
                      opened := image_files;
                      files := <[transcript_path :=
                                   Spec.transcript
                                     [first_message w review image_files;
                                      assistant_message text]]> (w_files w) |}).
  { cbn [run].
    rewrite (step_assemble_ok w (init w) review (sentinel :: rest) image_files
               eq_refl Hin Hfound Hread).
    match goal with |- context [step w (step w ?c)] =>
      rewrite (step_await_model_reply w c eq_refl)
    end.
    cbv zeta. cbn [messages requests init List.length]. rewrite Hremote.
    match goal with |- context [step w ?c] =>
      rewrite (step_await_user_input w c eq_refl)
    end.
    cbv zeta. cbn [stdin]. rewrite Hs.
    change (fs_writable w transcript_path)
      with (fs_writable w "amazon_review_conversation.txt").
    rewrite Hw. cbn [messages].
    rewrite (save_outcome_storable _ _ Hstorable). reflexivity. }
  assert (Hall : create_amazon_review w = run w 3 (init w)).
  { unfold create_amazon_review. rewrite Hin. cbn [List.length].
    replace (2 * S (S (List.length rest)) + 1)
      with (3 + (2 * List.length rest + 2)) by lia.
    rewrite run_add. apply run_final. now rewrite Hrun. }
  rewrite Hall, Hrun. cbn [pc requests messages files].
  split; [reflexivity | split; [reflexivity | split; [reflexivity |]]].
  change "amazon_review_conversation.txt" with transcript_path.
  rewrite lookup_insert_eq. f_equal.
  unfold Spec.transcript, Spec.transcript_block. cbn [map Py.join fold_right].
  rewrite first_message_text. cbn [role first_message assistant_message content].
  cbn [Spec.message_text]. rewrite str_app_nil_r.
  change (Py.upper "user") with "USER". change (Py.upper "assistant") with "ASSISTANT".
  destruct image_files; rewrite !str_app_assoc; reflexivity.
Qed.

Lemma X17_immediate_exit_two_blocks_witness :
  files (create_amazon_review gallery_world) !! "amazon_review_conversation.txt"
  = Some
      ("USER: "
       ++ (Spec.review_text "Nice lamp"
           ++ "I'm also sharing some images of the product for your analysis:"
           ++ Py.nl)
       ++ Py.nl ++ Py.nl ++ "ASSISTANT: " ++ "Tell me more." ++ Py.nl ++ Py.nl).
Proof.
  apply (X17_immediate_exit_two_blocks gallery_world "Nice lamp" "exit" []
           ["images/.jpg"; "images/front.PNG"; "images/side.view.jpeg"]
           "Tell me more." []).
  - reflexivity.
  - cbn. auto.
  - reflexivity.
  - repeat constructor; unfold readable; discriminate.
  - reflexivity.
  - reflexivity.
  - reflexivity.
  - reflexivity.
Defined.

(** ** Nothing is lost in the encoding of a picture *)

Lemma below_spec (n : nat) (P : N -> bool) (x : N) :
  Unbase64.below n P = true -> (x < N.of_nat n)%N -> P x = true.
Proof.
  unfold Unbase64.below. intros Hall Hx.
  rewrite forallb_forall in Hall. apply Hall.
  apply in_map_iff. exists (N.to_nat x). split; [apply N2Nat.id |].
  apply in_seq. lia.
Qed.

Lemma digits_ok : Unbase64.below 64 Unbase64.digit_ok = true.
Proof. vm_compute. reflexivity. Qed.

Lemma first_pairs_ok :
  Unbase64.below 256 (fun x => Unbase64.below 16 (Unbase64.first_pair_ok x)) = true.
Proof. vm_compute. reflexivity. Qed.

Lemma second_pairs_ok :
  Unbase64.below 256 (fun y => Unbase64.below 4 (Unbase64.second_pair_ok y)) = true.
Proof. vm_compute. reflexivity. Qed.

Lemma lasts_ok : Unbase64.below 256 Unbase64.last_ok = true.
Proof. vm_compute. reflexivity. Qed.

Lemma byte_below (b : byte) : (Byte.to_N b < N.of_nat 256)%N.
Proof. pose proof (Byte.to_N_bounded b). lia. Qed.

Lemma byte_of_to_N (b : byte) : Unbase64.byte_of (Byte.to_N b) = b.
Proof. unfold Unbase64.byte_of. now rewrite Byte.of_to_N. Qed.

Lemma digit_value (n : N) :
  (n < 64)%N ->
  Unbase64.value (Base64.digit n) = n /\ Ascii.eqb (Base64.digit n) "=" = false.
Proof.
  intros Hn. pose proof (below_spec 64 _ n digits_ok Hn) as H.
  unfold Unbase64.digit_ok in H. apply andb_true_iff in H as [Hv Hp].
  split; [now apply N.eqb_eq | now apply negb_true_iff].
Qed.

Lemma last_byte (c : byte) : Unbase64.last_ok (Byte.to_N c) = true.
Proof. apply (below_spec 256 _ _ lasts_ok (byte_below c)). Qed.

Lemma first_pair (a b : byte) :
  Unbase64.first_pair_ok (Byte.to_N a) (N.shiftr (Byte.to_N b) 4) = true.
Proof.
  apply (below_spec 16 _ _ (below_spec 256 _ _ first_pairs_ok (byte_below a))).
  pose proof (last_byte b) as H. unfold Unbase64.last_ok in H. cbv zeta in H.
  repeat (apply andb_true_iff in H as [H ?]). now apply N.ltb_lt in H.
Qed.

Lemma second_pair (a b : byte) :
  Unbase64.second_pair_ok (Byte.to_N a) (N.shiftr (Byte.to_N b) 6) = true.
Proof.
  apply (below_spec 4 _ _ (below_spec 256 _ _ second_pairs_ok (byte_below a))).
  pose proof (last_byte b) as H. unfold Unbase64.last_ok in H. cbv zeta in H.
  repeat (apply andb_true_iff in H as [H ?]).
  match goal with H : (N.shiftr _ 6 <? 4)%N = true |- _ => now apply N.ltb_lt in H end.
Qed.

Lemma list_ind3 {A} (P : list A -> Prop) :
  P [] ->
  (forall a, P [a]) ->
  (forall a b, P [a; b]) ->
  (forall a b c l, P l -> P (a :: b :: c :: l)) ->
  forall l, P l.
Proof.
  intros H0 H1 H2 H3 l.
  assert (H : P l /\ (forall a, P (a :: l)) /\ (forall a b, P (a :: b :: l))).
  { induction l as [|x l (IH0 & IH1 & IH2)].
    - repeat split; auto.
    - repeat split; auto. }
  apply H.
Qed.

(** The digits of a group of three bytes give the bytes back. *)
Lemma group_bytes (a b c : byte) :
  let x := Byte.to_N a in
  let y := Byte.to_N b in
  let z := Byte.to_N c in
  let d0 := Base64.digit (N.shiftr x 2) in
  let d1 := Base64.digit (N.lor (N.shiftl (N.land x 3) 4) (N.shiftr y 4)) in
  let d2 := Base64.digit (N.lor (N.shiftl (N.land y 15) 2) (N.shiftr z 6)) in
  let d3 := Base64.digit (N.land z 63) in
  (Unbase64.value d0 * 4 + Unbase64.value d1 / 16 = x
   /\ (Unbase64.value d1 mod 16) * 16 + Unbase64.value d2 / 4 = y
   /\ (Unbase64.value d2 mod 4) * 64 + Unbase64.value d3 = z
   /\ Ascii.eqb d2 "=" = false
   /\ Ascii.eqb d3 "=" = false)%N.
Proof.
  cbv zeta.
  pose proof (first_pair a b) as H1. pose proof (second_pair b c) as H2.
  pose proof (last_byte c) as H3.
  unfold Unbase64.first_pair_ok in H1. unfold Unbase64.second_pair_ok in H2.
  unfold Unbase64.last_ok in H3. cbv zeta in H1, H2, H3.
  repeat (apply andb_true_iff in H1 as [H1 ?]).
  repeat (apply andb_true_iff in H2 as [H2 ?]).
  repeat (apply andb_true_iff in H3 as [H3 ?]).
  repeat match goal with
         | H : (_ <? _)%N = true |- _ => apply N.ltb_lt in H
         | H : (_ =? _)%N = true |- _ => apply N.eqb_eq in H
         end.
  repeat match goal with
         | H : (?n < 64)%N |- _ =>
             let Hv := fresh "Hv" in
             let Hp := fresh "Hp" in
             destruct (digit_value n H) as [Hv Hp]; rewrite ?Hv; clear H
         end.
  repeat split; congruence.
Qed.

Lemma group_bytes_one (a : byte) :
  let x := Byte.to_N a in
  (Unbase64.value (Base64.digit (N.shiftr x 2)) * 4
   + Unbase64.value (Base64.digit (N.shiftl (N.land x 3) 4)) / 16 = x)%N.
Proof.
  cbv zeta. pose proof (group_bytes a x00 x00) as H. cbv zeta in H.
  change (Byte.to_N x00) with 0%N in H. change (N.shiftr 0 4) with 0%N in H.
  rewrite N.lor_0_r in H. apply H.
Qed.

Lemma group_bytes_two (a b : byte) :
  let x := Byte.to_N a in
  let y := Byte.to_N b in
  let d0 := Base64.digit (N.shiftr x 2) in
  let d1 := Base64.digit (N.lor (N.shiftl (N.land x 3) 4) (N.shiftr y 4)) in
  let d2 := Base64.digit (N.shiftl (N.land y 15) 2) in
  (Unbase64.value d0 * 4 + Unbase64.value d1 / 16 = x
   /\ (Unbase64.value d1 mod 16) * 16 + Unbase64.value d2 / 4 = y
   /\ Ascii.eqb d2 "=" = false)%N.
Proof.
  cbv zeta. pose proof (group_bytes a b x00) as H. cbv zeta in H.
  change (Byte.to_N x00) with 0%N in H. change (N.shiftr 0 6) with 0%N in H.
  rewrite N.lor_0_r in H. destruct H as (H1 & H2 & _ & H3 & _). auto.
Qed.

(** Decoding what [b64encode] produced gives the bytes back. *)
Lemma decode_b64encode (bs : list byte) :
  Unbase64.decode (Base64.b64encode bs) = bs.
Proof.
  induction bs as [| a | a b | a b c bs IH] using list_ind3.
  - reflexivity.
  - cbn [Base64.b64encode Unbase64.decode]. cbv zeta.
    change (Ascii.eqb Base64.pad "=") with true. cbv iota.
    now rewrite group_bytes_one, byte_of_to_N.
  - cbn [Base64.b64encode Unbase64.decode]. cbv zeta.
    destruct (group_bytes_two a b) as (H1 & H2 & H3). cbv zeta in H1, H2, H3.
    rewrite H3. change (Ascii.eqb Base64.pad "=") with true. cbv iota.
    now rewrite H1, H2, !byte_of_to_N.
  - cbn [Base64.b64encode Unbase64.decode]. cbv zeta.
    destruct (group_bytes a b c) as (H1 & H2 & H3 & H4 & H5).
    cbv zeta in H1, H2, H3, H4, H5.
    rewrite H4, H5, H1, H2, H3, !byte_of_to_N, IH. reflexivity.
Qed.

Lemma digit_is_b64_char (n : N) :
  (n < 64)%N -> Unbase64.is_b64_char (Base64.digit n) = true.
Proof.
  intros Hn. unfold Unbase64.is_b64_char.
  rewrite (proj1 (digit_value n Hn)). apply orb_true_iff. left. now apply N.ltb_lt.
Qed.

Lemma group_chars (a b c : byte) :
  let x := Byte.to_N a in
  let y := Byte.to_N b in
  let z := Byte.to_N c in
  Unbase64.is_b64_char (Base64.digit (N.shiftr x 2)) = true
  /\ Unbase64.is_b64_char
       (Base64.digit (N.lor (N.shiftl (N.land x 3) 4) (N.shiftr y 4))) = true
  /\ Unbase64.is_b64_char
       (Base64.digit (N.lor (N.shiftl (N.land y 15) 2) (N.shiftr z 6))) = true
  /\ Unbase64.is_b64_char (Base64.digit (N.land z 63)) = true.
Proof.
  cbv zeta.
  pose proof (first_pair a b) as H1. pose proof (second_pair b c) as H2.
  pose proof (last_byte c) as H3.
  unfold Unbase64.first_pair_ok in H1. unfold Unbase64.second_pair_ok in H2.
  unfold Unbase64.last_ok in H3. cbv zeta in H1, H2, H3.
  repeat (apply andb_true_iff in H1 as [H1 ?]).
  repeat (apply andb_true_iff in H2 as [H2 ?]).
  repeat (apply andb_true_iff in H3 as [H3 ?]).
  repeat match goal with
         | H : (_ <? _)%N = true |- _ => apply N.ltb_lt in H
         end.
  repeat split; now apply digit_is_b64_char.
Qed.

Lemma b64encode_chars (bs : list byte) :
  Unbase64.all_chars Unbase64.is_b64_char (Base64.b64encode bs) = true.
Proof.
  induction bs as [| a | a b | a b c bs IH] using list_ind3.
  - reflexivity.
  - cbn [Base64.b64encode Unbase64.all_chars].
    destruct (group_chars a x00 x00) as (H0 & H1 & _). cbv zeta in H0, H1.
    change (Byte.to_N x00) with 0%N in H1. change (N.shiftr 0 4) with 0%N in H1.
    rewrite N.lor_0_r in H1. rewrite H0, H1. reflexivity.
  - cbn [Base64.b64encode Unbase64.all_chars].
    destruct (group_chars a b x00) as (H0 & H1 & H2 & _). cbv zeta in H0, H1, H2.
    change (Byte.to_N x00) with 0%N in H2. change (N.shiftr 0 6) with 0%N in H2.
    rewrite N.lor_0_r in H2. rewrite H0, H1, H2. reflexivity.
  - cbn [Base64.b64encode Unbase64.all_chars].
    destruct (group_chars a b c) as (H0 & H1 & H2 & H3). cbv zeta in H0, H1, H2, H3.
    rewrite H0, H1, H2, H3, IH. reflexivity.
Qed.

Lemma b64encode_length (bs : list byte) :
  String.length (Base64.b64encode bs) = 4 * ((List.length bs + 2) / 3).
Proof.
  induction bs as [| a | a b | a b c bs IH] using list_ind3; try reflexivity.
  cbn [Base64.b64encode String.length List.length]. rewrite IH.
  replace (S (S (S (List.length bs))) + 2) with (List.length bs + 2 + 1 * 3) by lia.
  rewrite Nat.div_add by lia. lia.
Qed.

Lemma b64_chars_no_line_feed (s : string) :
  Unbase64.all_chars Unbase64.is_b64_char s = true -> Py.free_of "010" s = true.
Proof.
  induction s as [|ch s IH]; [reflexivity |].
  cbn [Unbase64.all_chars Py.free_of]. intros H.
  apply andb_true_iff in H as [Hch Hs]. rewrite (IH Hs), andb_true_r.
  destruct (Ascii.eqb_spec ch "010") as [-> | Hne]; [discriminate Hch | reflexivity].
Qed.

Lemma encode_image_returns (w : World) (path : string) (c : Config) (data : string) :
  snd (encode_image w path c) = Return data ->
  exists bytes,
    fs_read w path = Some bytes
    /\ data = Base64.b64encode bytes
    /\ fst (encode_image w path c) = set_opened (opened c ++ [path]) c.
Proof.
  unfold encode_image, bind, read_binary, ret.
  destruct (fs_read w path) as [bytes|]; cbn [fst snd]; intros H; [| discriminate H].
  injection H as <-. exists bytes. repeat split.
Qed.

(** X6: the text [encode_image] returns for a file of [n] bytes is made of
    [4 * ceil(n / 3)] characters, all of them digits of the base64 alphabet
    or the padding sign: a single line, without line feed, whose length is a
    multiple of four and about a third more than the file. *)
Theorem X6_encoded_picture_shape (w : World) (path : string) (c : Config)
    (data : string) :
  snd (encode_image w path c) = Return data ->
  exists bytes,
    fs_read w path = Some bytes
    /\ String.length data = 4 * ((List.length bytes + 2) / 3)
    /\ Unbase64.all_chars Unbase64.is_b64_char data = true
    /\ Py.free_of "010" data = true.
Proof.
  intros H. destruct (encode_image_returns w path c data H) as (bytes & Hread & -> & _).
  exists bytes. split; [exact Hread | split; [apply b64encode_length | split]].
  - apply b64encode_chars.
  - apply b64_chars_no_line_feed, b64encode_chars.
Qed.

Lemma X6_encoded_picture_shape_witness :
  exists bytes,
    fs_read gallery_world "images/front.PNG" = Some bytes
    /\ String.length "TWFu" = 4 * ((List.length bytes + 2) / 3)
    /\ Unbase64.all_chars Unbase64.is_b64_char "TWFu" = true
    /\ Py.free_of "010" "TWFu" = true.
Proof.
  apply (X6_encoded_picture_shape gallery_world "images/front.PNG" (init gallery_world)).
  reflexivity.
Defined.

(** X7: the encoding of a picture loses nothing: the text [encode_image]
    returns decodes to the bytes of the file, so that two files are given
    the same text only when they hold the same bytes. *)
Theorem X7_encoded_picture_round_trip (w : World) (path : string) (c : Config)
    (data : string) :
  snd (encode_image w path c) = Return data ->
  fs_read w path = Some (Unbase64.decode data)
  /\ forall w' path' c',
       snd (encode_image w' path' c') = Return data ->
       fs_read w' path' = fs_read w path.
Proof.
  intros H. destruct (encode_image_returns w path c data H) as (bytes & Hread & -> & _).
  rewrite decode_b64encode. split; [exact Hread |].
  intros w' path' c' H'.
  destruct (encode_image_returns w' path' c' _ H') as (bytes' & Hread' & Heq & _).
  rewrite Hread, Hread'. f_equal.
  rewrite <- (decode_b64encode bytes'), <- Heq. apply decode_b64encode.
Qed.

Lemma X7_encoded_picture_round_trip_witness :
  fs_read broken_world "images/a.png" = Some (Unbase64.decode "TWE=").
Proof.
  apply (X7_encoded_picture_round_trip broken_world "images/a.png" (init broken_world)).
  reflexivity.
Defined.
